(** * parse_har.py: a HAR reporter, embedded and verified

    The script loads a HAR (HTTP Archive) JSON document, prints the number
    of entries, and prints a block for every entry whose URL looks
    authentication related.  The whole body sits in one [try]/[except].

    The embedding follows the script statement by statement:
    - JSON values as Python holds them after [json.load] (dynamically
      typed, so every subscript can raise);
    - standard output and file opening as a trace of events that the
      program threads through its statements;
    - exceptions as a result type, caught by the single handler.

    Domain of the embedding: characters are code points below 256
    ([Ascii.ascii]), JSON numbers are Python [int]s (no floats), and
    [print] itself never fails.  Exception messages follow CPython 3.11. *)

From Stdlib Require Import String Ascii List ZArith Lia Bool Arith.
From Stdlib Require Import Decimal DecimalString.
Import ListNotations.
Local Open Scope list_scope.
Local Open Scope string_scope.

(** ** JSON values as produced by [json.load] *)

#[warnings="-register-all"]
Inductive json : Type :=
| JNull
| JBool (b : bool)
| JInt (z : Z)
| JStr (s : string)
| JArr (items : list json)
| JObj (members : list (string * json)).

(** A Python [dict] built by [json.load] keeps its keys in document order
    and holds each key once; lookup returns the value bound to the key. *)
Fixpoint assoc (k : string) (m : list (string * json)) : option json :=
  match m with
  | [] => None
  | (k', v) :: m' => if String.eqb k k' then Some v else assoc k m'
  end.

(** ** Exceptions and results *)

(** The exceptions a run can meet, all of them subclasses of [Exception].
    [LoadError] stands for whatever opening, decoding or parsing the file
    raises ([OSError], [UnicodeDecodeError], [json.JSONDecodeError]). *)
Inductive exn : Type :=
| KeyError (key : string)
| TypeError (msg : string)
| AttributeError (msg : string)
| IndexError (msg : string)
| LoadError (msg : string).

Inductive result (A : Type) : Type :=
| Ok (a : A)
| Raise (e : exn).
Arguments Ok {A} a.
Arguments Raise {A} e.

(** ** The Python operations the script applies to JSON values *)

Definition type_name (v : json) : string :=
  match v with
  | JNull => "NoneType"
  | JBool _ => "bool"
  | JInt _ => "int"
  | JStr _ => "str"
  | JArr _ => "list"
  | JObj _ => "dict"
  end.

(** [v[k]] for a string key [k]. *)
Definition subscript (v : json) (k : string) : result json :=
  match v with
  | JObj m =>
      match assoc k m with
      | Some x => Ok x
      | None => Raise (KeyError k)
      end
  | JArr _ => Raise (TypeError "list indices must be integers or slices, not str")
  | JStr _ => Raise (TypeError "string indices must be integers, not 'str'")
  | _ => Raise (TypeError ("'" ++ type_name v ++ "' object is not subscriptable"))
  end.

(** [v.get(k, default)]; [v.get(k)] is [get v k JNull]. *)
Definition get (v : json) (k : string) (default : json) : result json :=
  match v with
  | JObj m =>
      match assoc k m with
      | Some x => Ok x
      | None => Ok default
      end
  | _ => Raise (AttributeError ("'" ++ type_name v ++ "' object has no attribute 'get'"))
  end.

(** Truth value of a JSON value in a condition. *)
Definition truthy (v : json) : bool :=
  match v with
  | JNull => false
  | JBool b => b
  | JInt z => negb (z =? 0)%Z
  | JStr s => negb (String.eqb s "")
  | JArr l => match l with [] => false | _ => true end
  | JObj m => match m with [] => false | _ => true end
  end.

(** Substring test on strings: [needle in hay]. *)
Fixpoint str_in (needle hay : string) : bool :=
  if String.prefix needle hay then true
  else match hay with
       | EmptyString => false
       | String _ hay' => str_in needle hay'
       end.

(** [needle in v] for a string [needle]: substring of a string, element of
    a list, key of a dict. *)
Definition contains (needle : string) (v : json) : result bool :=
  match v with
  | JStr s => Ok (str_in needle s)
  | JArr l =>
      Ok (existsb (fun x => match x with
                            | JStr s => String.eqb needle s
                            | _ => false
                            end) l)
  | JObj m => Ok (existsb (fun kv => String.eqb needle (fst kv)) m)
  | _ => Raise (TypeError ("argument of type '" ++ type_name v ++ "' is not iterable"))
  end.

Fixpoint chars (s : string) : list json :=
  match s with
  | EmptyString => []
  | String c s' => JStr (String c EmptyString) :: chars s'
  end.

(** The items a [for] loop over [v] visits. *)
Definition iter (v : json) : result (list json) :=
  match v with
  | JArr l => Ok l
  | JObj m => Ok (map (fun kv => JStr (fst kv)) m)
  | JStr s => Ok (chars s)
  | _ => Raise (TypeError ("'" ++ type_name v ++ "' object is not iterable"))
  end.

(** [len(v)]. *)
Definition len (v : json) : result nat :=
  match v with
  | JStr s => Ok (String.length s)
  | JArr l => Ok (List.length l)
  | JObj m => Ok (List.length m)
  | _ => Raise (TypeError ("object of type '" ++ type_name v ++ "' has no len()"))
  end.

(** [v[:n]]. *)
Definition slice_to (n : nat) (v : json) : result json :=
  match v with
  | JStr s => Ok (JStr (substring 0 n s))
  | JArr l => Ok (JArr (firstn n l))
  | JObj _ => Raise (TypeError "unhashable type: 'slice'")
  | _ => Raise (TypeError ("'" ++ type_name v ++ "' object is not subscriptable"))
  end.

(** [v >= n] for an integer literal [n]; [bool] is a subtype of [int]. *)
Definition ge_int (v : json) (n : Z) : result bool :=
  match v with
  | JInt z => Ok (n <=? z)%Z
  | JBool b => Ok (n <=? (if b then 1 else 0))%Z
  | _ => Raise (TypeError ("'>=' not supported between instances of '"
                           ++ type_name v ++ "' and 'int'"))
  end.

(** ** Text conversion: [str] and [repr] *)

Definition str_of_Z (z : Z) : string := NilZero.string_of_int (Z.to_int z).
Definition str_of_nat (n : nat) : string := NilZero.string_of_uint (Nat.to_uint n).

Definition hex_digit (n : nat) : ascii :=
  match n with
  | 0 => "0" | 1 => "1" | 2 => "2" | 3 => "3" | 4 => "4"
  | 5 => "5" | 6 => "6" | 7 => "7" | 8 => "8" | 9 => "9"
  | 10 => "a" | 11 => "b" | 12 => "c" | 13 => "d" | 14 => "e"
  | _ => "f"
  end%char.

(** Code points [repr] leaves as they are: the printable ones. *)
Definition printable (n : nat) : bool :=
  (((32 <=? n) && (n <? 127)) || ((161 <=? n) && negb (n =? 173)))%nat.

Definition repr_char (quote : ascii) (c : ascii) : string :=
  let n := nat_of_ascii c in
  if Ascii.eqb c quote || Ascii.eqb c "\"%char then String "\"%char (String c EmptyString)
  else if (n =? 9)%nat then "\t"
  else if (n =? 10)%nat then "\n"
  else if (n =? 13)%nat then "\r"
  else if printable n then String c EmptyString
  else String "\"%char (String "x"%char
         (String (hex_digit (n / 16)) (String (hex_digit (n mod 16)) EmptyString))).

Fixpoint has_char (c : ascii) (s : string) : bool :=
  match s with
  | EmptyString => false
  | String c' s' => Ascii.eqb c c' || has_char c s'
  end.

Definition squote : ascii := "'"%char.
Definition dquote : ascii := ascii_of_nat 34.

Fixpoint repr_chars (quote : ascii) (s : string) : string :=
  match s with
  | EmptyString => EmptyString
  | String c s' => repr_char quote c ++ repr_chars quote s'
  end.

(** [repr] of a string: single quotes unless the string holds a single
    quote and no double quote. *)
Definition repr_str (s : string) : string :=
  let quote := if has_char squote s && negb (has_char dquote s) then dquote else squote in
  String quote (repr_chars quote s ++ String quote EmptyString).

Fixpoint join (sep : string) (l : list string) : string :=
  match l with
  | [] => ""
  | [x] => x
  | x :: l' => x ++ sep ++ join sep l'
  end.

Fixpoint repr (v : json) : string :=
  match v with
  | JNull => "None"
  | JBool true => "True"
  | JBool false => "False"
  | JInt z => str_of_Z z
  | JStr s => repr_str s
  | JArr l => "[" ++ join ", " (map repr l) ++ "]"
  | JObj m =>
      "{" ++ join ", " (map (fun kv => repr_str (fst kv) ++ ": " ++ repr (snd kv)) m) ++ "}"
  end.

(** What a replacement field [{v}] of an f-string inserts. *)
Definition str (v : json) : string :=
  match v with
  | JStr s => s
  | _ => repr v
  end.

(** [str(e)] for a caught exception. *)
Definition exn_str (e : exn) : string :=
  match e with
  | KeyError k => repr_str k
  | TypeError m => m
  | AttributeError m => m
  | IndexError m => m
  | LoadError m => m
  end.

(** ** Effects: the trace of a run and the statement monad *)

(** What a run does to the outside world, in order. *)
Inductive event : Type :=
| Open (path : string)
| Print (line : string).

Definition trace := list event.

(** A statement takes the trace so far and returns the extended trace with
    either a value or the exception that stopped it. *)
Definition M (A : Type) : Type := trace -> trace * result A.

Definition ret {A : Type} (a : A) : M A := fun t => (t, Ok a).

Definition lift {A : Type} (r : result A) : M A := fun t => (t, r).

Definition bind {A B : Type} (m : M A) (f : A -> M B) : M B :=
  fun t =>
    match m t with
    | (t', Ok a) => f a t'
    | (t', Raise e) => (t', Raise e)
    end.

Notation "x <- m ;; k" := (bind m (fun x => k))
  (at level 61, m at next level, right associativity).
Notation "m ;; k" := (bind m (fun _ => k))
  (at level 61, right associativity).

(** [print(s)]: one more line on standard output. *)
Definition print (s : string) : M unit := fun t => ((t ++ [Print s])%list, Ok tt).

(** [for x in xs: body]. *)
Fixpoint for_each {A : Type} (body : A -> M unit) (xs : list A) : M unit :=
  match xs with
  | [] => ret tt
  | x :: xs' => body x ;; for_each body xs'
  end.

(** [a or b] on conditions that can raise: [b] runs only when [a] is false. *)
Definition or_else (a b : M bool) : M bool :=
  x <- a ;; if x then ret true else b.

(** [try: body  except Exception as e: handler e]. *)
Definition try_except (body : M unit) (handler : exn -> M unit) : M unit :=
  fun t =>
    match body t with
    | (t', Ok _) => (t', Ok tt)
    | (t', Raise e) => handler e t'
    end.

(** What the script takes from the interpreter and the machine: reading a
    file as text (it can fail to open or to decode) and [json.loads]. *)
Record runtime : Type := {
  read_text : string -> result string;
  json_loads : string -> result json
}.

(** [with open(file_path, 'r') as f: har_data = json.load(f)]. *)
Definition load (rt : runtime) (file_path : string) : M json :=
  fun t =>
    ((t ++ [Open file_path])%list,
     match read_text rt file_path with
     | Ok text => json_loads rt text
     | Raise e => Raise e
     end).

(** ** The script *)

Definition separator : string := Eval cbv in string_of_list_ascii (repeat "-"%char 80).

(** Line 19: the filter for relevant URLs. *)
Definition is_relevant (url : json) : M bool :=
  or_else (lift (contains "api/auth" url))
    (or_else (lift (contains "api/oauth" url))
       (lift (contains "callback" url))).

Definition print_pair (pair : json) : M unit :=
  name <- lift (subscript pair "name") ;;
  value <- lift (subscript pair "value") ;;
  print ("  " ++ str name ++ ": " ++ str value).

(** Lines 26-28. *)
Definition print_headers (request : json) : M unit :=
  print "Headers:" ;;
  headers <- lift (subscript request "headers") ;;
  items <- lift (iter headers) ;;
  for_each print_pair items.

(** Lines 32-35. *)
Definition print_query_params (request : json) : M unit :=
  qs <- lift (get request "queryString" JNull) ;;
  if truthy qs then
    print "Query Params:" ;;
    params <- lift (subscript request "queryString") ;;
    items <- lift (iter params) ;;
    for_each print_pair items
  else ret tt.

(** Line 39: the condition
    [content.get('mimeType') and 'application/json' in content['mimeType']]. *)
Definition is_json_content (content : json) : M bool :=
  mime <- lift (get content "mimeType" JNull) ;;
  if truthy mime then
    mime' <- lift (subscript content "mimeType") ;;
    lift (contains "application/json" mime')
  else ret false.

(** Lines 38-46. *)
Definition print_response_content (response : json) : M unit :=
  content <- lift (subscript response "content") ;;
  is_json <- is_json_content content ;;
  if is_json then
    text <- lift (get content "text" (JStr "")) ;;
    n <- lift (len text) ;;
    if (n <? 1000)%nat then print ("Response Body: " ++ str text)
    else
      head <- lift (slice_to 200 text) ;;
      print ("Response Body (truncated): " ++ str head ++ "...")
  else
    status <- lift (subscript response "status") ;;
    is_error <- lift (ge_int status 400) ;;
    if is_error then
      text <- lift (get content "text" (JStr "")) ;;
      head <- lift (slice_to 500 text) ;;
      print ("Error Response Body: " ++ str head)
    else ret tt.

(** Lines 20-46: the block of a relevant entry. *)
Definition print_block (request response url : json) : M unit :=
  print separator ;;
  print ("URL: " ++ str url) ;;
  method <- lift (subscript request "method") ;;
  print ("Method: " ++ str method) ;;
  status <- lift (subscript response "status") ;;
  status_text <- lift (subscript response "statusText") ;;
  print ("Status: " ++ str status ++ " " ++ str status_text) ;;
  print_headers request ;;
  print_query_params request ;;
  print_response_content response.

(** Lines 14-46: the body of the loop over the entries. *)
Definition process_entry (entry : json) : M unit :=
  request <- lift (subscript entry "request") ;;
  response <- lift (subscript entry "response") ;;
  url <- lift (subscript request "url") ;;
  relevant <- is_relevant url ;;
  if relevant then print_block request response url else ret tt.

(** Lines 7-46: what the [try] protects. *)
Definition parse_har_body (rt : runtime) (file_path : string) : M unit :=
  har_data <- load rt file_path ;;
  log <- lift (subscript har_data "log") ;;
  entries <- lift (subscript log "entries") ;;
  n <- lift (len entries) ;;
  print ("Total entries: " ++ str_of_nat n) ;;
  items <- lift (iter entries) ;;
  for_each process_entry items.

Definition parse_har (rt : runtime) (file_path : string) : M unit :=
  try_except (parse_har_body rt file_path)
    (fun e => print ("Error parsing HAR: " ++ exn_str e)).

(** [sys.argv[i]]. *)
Definition argv_get (argv : list string) (i : nat) : result string :=
  match nth_error argv i with
  | Some a => Ok a
  | None => Raise (IndexError "list index out of range")
  end.

Definition usage : string := "Usage: python3 parse_har.py <file_path>".

(** Lines 51-55; [argv] is [sys.argv], the script name first. *)
Definition main (rt : runtime) (argv : list string) : M unit :=
  if (List.length argv <? 2)%nat then print usage
  else
    file_path <- lift (argv_get argv 1) ;;
    parse_har rt file_path.

(** A whole run starts from the empty trace. *)
Definition run {A : Type} (m : M A) : trace * result A := m [].

Fixpoint printed (t : trace) : list string :=
  match t with
  | [] => []
  | Print s :: t' => s :: printed t'
  | Open _ :: t' => printed t'
  end.

Fixpoint opened (t : trace) : list string :=
  match t with
  | [] => []
  | Open p :: t' => p :: opened t'
  | Print _ :: t' => opened t'
  end.

Definition newline : string := String (ascii_of_nat 10) EmptyString.

(** The text standard output receives: every printed line, then a newline. *)
Fixpoint stdout (t : trace) : string :=
  match t with
  | [] => ""
  | Print s :: t' => s ++ newline ++ stdout t'
  | Open _ :: t' => stdout t'
  end.

(** ** The data model of the specification, read off JSON values *)

(** [needle] occurs in [hay] as a contiguous, literal run of characters. *)
Definition has_substring (needle hay : string) : Prop :=
  exists before after, hay = before ++ needle ++ after.

(** The URL filter in the specification's words. *)
Definition relevant_url (url : string) : Prop :=
  has_substring "api/auth" url \/ has_substring "api/oauth" url \/
  has_substring "callback" url.

(** The same filter as a test. *)
Definition relevant_urlb (u : string) : bool :=
  str_in "api/auth" u || str_in "api/oauth" u || str_in "callback" u.

(** A name/value pair: an object with string fields [name] and [value]. *)
Definition as_pair (v : json) : option (string * string) :=
  match subscript v "name", subscript v "value" with
  | Ok (JStr n), Ok (JStr x) => Some (n, x)
  | _, _ => None
  end.

Fixpoint as_pair_list (l : list json) : option (list (string * string)) :=
  match l with
  | [] => Some []
  | v :: l' =>
      match as_pair v, as_pair_list l' with
      | Some p, Some ps => Some (p :: ps)
      | _, _ => None
      end
  end.

(** An ordered sequence of name/value pairs. *)
Definition as_pairs (v : json) : option (list (string * string)) :=
  match v with
  | JArr l => as_pair_list l
  | _ => None
  end.

(** An optional string field of an object: [Some None] when the key is
    absent, [Some (Some s)] when it holds the string [s]. *)
Definition opt_str_field (k : string) (v : json) : option (option string) :=
  match v with
  | JObj m =>
      match assoc k m with
      | None => Some None
      | Some (JStr s) => Some (Some s)
      | Some _ => None
      end
  | _ => None
  end.

(** The key [k] is missing from the object [v]. *)
Definition lacks (k : string) (v : json) : Prop :=
  exists m, v = JObj m /\ assoc k m = None.

Definition pair_line (p : string * string) : string :=
  "  " ++ fst p ++ ": " ++ snd p.

(** The lines every well-formed block opens with. *)
Definition block_head (u m : string) (s : Z) (st : string)
           (nvs : list (string * string)) : list string :=
  ([separator; ("URL: " ++ u)%string; ("Method: " ++ m)%string;
    ("Status: " ++ str_of_Z s ++ " " ++ st)%string; "Headers:"] ++ map pair_line nvs)%list.

(** The text of an optional body. *)
Definition text_or_empty (text : option string) : string :=
  match text with
  | Some s => s
  | None => ""
  end.

(** The mime type is present and contains "application/json". *)
Definition json_mime (mime : option string) : Prop :=
  exists m, mime = Some m /\ has_substring "application/json" m.

Definition json_mimeb (mime : option string) : bool :=
  match mime with
  | Some m => str_in "application/json" m
  | None => false
  end.

(** What one statement prints when started from the empty trace, and how
    it ends. *)
Definition emitted {A : Type} (m : M A) : trace := fst (run m).
Definition outcome {A : Type} (m : M A) : result A := snd (run m).

(** A statement only ever extends the trace it is given. *)
Definition framed {A : Type} (m : M A) : Prop :=
  forall t, m t = ((t ++ emitted m)%list, outcome m).

(** The value found at [log.entries] of the document the file holds, or
    the exception that reading, parsing or either subscript raises. *)
Definition loaded_entries (rt : runtime) (file_path : string) : result json :=
  match read_text rt file_path with
  | Raise e => Raise e
  | Ok text =>
      match json_loads rt text with
      | Raise e => Raise e
      | Ok har_data =>
          match subscript har_data "log" with
          | Raise e => Raise e
          | Ok log => subscript log "entries"
          end
      end
  end.

Definition total_line (n : nat) : string := "Total entries: " ++ str_of_nat n.
Definition error_line (e : exn) : string := "Error parsing HAR: " ++ exn_str e.

(** The entry runs to its end without raising. *)
Definition entry_ok (entry : json) : Prop := outcome (process_entry entry) = Ok tt.

(** Everything the entries of [es] print, entry after entry. *)
Definition blocks (es : list json) : trace :=
  concat (map (fun e => emitted (process_entry e)) es).

(** The URL of an entry that has a request, a response and a string
    [url]. *)
Definition entry_url (entry : json) : option string :=
  match subscript entry "request", subscript entry "response" with
  | Ok request, Ok _ =>
      match subscript request "url" with
      | Ok (JStr u) => Some u
      | _ => None
      end
  | _, _ => None
  end.

(** The entries the filter keeps. *)
Definition matching (entry : json) : bool :=
  match entry_url entry with
  | Some u => relevant_urlb u
  | None => false
  end.

(** ** Sample documents *)

Definition pair (n v : string) : json := JObj [("name", JStr n); ("value", JStr v)].

Definition sample_request (url : string) (query : list (string * json)) : json :=
  JObj ([("method", JStr "POST"); ("url", JStr url);
         ("headers", JArr [pair "Host" "x.com"; pair "Accept" "*/*"])] ++ query)%list.

Definition sample_response (status : Z) (rest : list (string * json)) : json :=
  JObj ([("status", JInt status); ("statusText", JStr "Found")] ++ rest)%list.

Definition sample_query : list (string * json) :=
  [("queryString", JArr [pair "code" "abc"; pair "state" "xyz"])].

Definition json_content (text : string) : json :=
  JObj [("mimeType", JStr "application/json; charset=utf-8"); ("text", JStr text)].

Definition sample_entry (url : string) (query : list (string * json))
           (status : Z) (rest : list (string * json)) : json :=
  JObj [("startedDateTime", JStr "2024-01-01T00:00:00Z");
        ("request", sample_request url query);
        ("response", sample_response status rest)].

Definition login_entry : json :=
  sample_entry "https://x.com/api/auth/login" sample_query 200
    [("content", json_content "{}")].

Definition static_entry : json :=
  sample_entry "https://x.com/static/app.js" [] 200 [("content", JObj [])].

Definition callback_entry : json :=
  sample_entry "https://x.com/callback" [] 404
    [("content", JObj [("text", JStr "not found")])].

(** Malformed entries. *)
Definition no_response_entry : json :=
  JObj [("request", sample_request "https://x.com/static/app.js" [])].

Definition no_content_entry : json :=
  sample_entry "https://x.com/api/oauth/token" sample_query 200 [].

Definition har_of (entries : list json) : json :=
  JObj [("log", JObj [("version", JStr "1.2"); ("entries", JArr entries)])].

(** A machine whose only file, [capture.har], parses to [doc]. *)
Definition machine (doc : json) : runtime :=
  {| read_text := fun p =>
       if String.eqb p "capture.har" then Ok "(the text of the capture)"
       else Raise (LoadError ("[Errno 2] No such file or directory: " ++ repr_str p));
     json_loads := fun _ => Ok doc |}.

(** A body of 1500 characters. *)
Definition long_text : string := string_of_list_ascii (repeat "a"%char 1500).

Definition sample_har : json := har_of [login_entry; static_entry; callback_entry].

(** A capture whose second entry has no response. *)
Definition broken_har : json := har_of [login_entry; no_response_entry; callback_entry].

(** A capture whose first entry has a response without content. *)
Definition truncated_har : json := har_of [no_content_entry; callback_entry].

(** A capture whose first entry has a header without a name. *)
Definition nameless_header_har : json :=
  har_of [JObj [("request",
                 JObj [("method", JStr "GET"); ("url", JStr "https://x.com/callback");
                       ("headers", JArr [pair "Host" "x.com";
                                         JObj [("value", JStr "gzip")];
                                         pair "Accept" "*/*"])]);
                ("response", sample_response 200 [("content", JObj [])])];
          callback_entry].

(** A second machine: the same capture next to another file. *)
Definition busy_machine (doc : json) : runtime :=
  {| read_text := fun p =>
       if String.eqb p "capture.har" then Ok "(the text of the capture)"
       else Ok "(some other file)";
     json_loads := fun _ => Ok doc |}.

(** ** The body of the [try], statement group by statement group *)

(** Lines 13-46: the summary line and the loop, given the value of
    [log.entries]. *)
Definition entries_loop (entries : json) : M unit :=
  n <- lift (len entries) ;;
  print ("Total entries: " ++ str_of_nat n) ;;
  items <- lift (iter entries) ;;
  for_each process_entry items.

(** Lines 10-46: what follows the loading of the document. *)
Definition report (har_data : json) : M unit :=
  log <- lift (subscript har_data "log") ;;
  entries <- lift (subscript log "entries") ;;
  entries_loop entries.

(** Lines 21-46: the block after its separator. *)
Definition block_rest (request response url : json) : M unit :=
  print ("URL: " ++ str url) ;;
  method <- lift (subscript request "method") ;;
  print ("Method: " ++ str method) ;;
  status <- lift (subscript response "status") ;;
  status_text <- lift (subscript response "statusText") ;;
  print ("Status: " ++ str status ++ " " ++ str status_text) ;;
  print_headers request ;;
  print_query_params request ;;
  print_response_content response.

(** ** Measures on traces *)

Definition is_print (ev : event) : Prop :=
  match ev with
  | Print _ => True
  | Open _ => False
  end.

Definition starts_with_dash (s : string) : bool :=
  match s with
  | String c _ => Ascii.eqb c "-"%char
  | EmptyString => false
  end.

(** A printed text that does not begin with a dash. *)
Definition plain (ev : event) : Prop :=
  match ev with
  | Print l => starts_with_dash l = false
  | Open _ => False
  end.

(** A printed text that, if it begins with a dash, is the separator. *)
Definition dash_is_separator (ev : event) : Prop :=
  match ev with
  | Print l => starts_with_dash l = true -> l = separator
  | Open _ => False
  end.

Definition is_separator (ev : event) : bool :=
  match ev with
  | Print l => String.eqb l separator
  | Open _ => false
  end.

(** How many times the separator was printed. *)
Definition separators (t : trace) : nat := List.length (filter is_separator t).

(** A statement that extends the trace by events satisfying [P] only. *)
Definition keeps (P : event -> Prop) {A : Type} (m : M A) : Prop :=
  framed m /\ Forall P (emitted m).

(** ** Well-formed entries, typed *)

Definition str_field (k : string) (v : json) : option string :=
  match subscript v k with
  | Ok (JStr s) => Some s
  | _ => None
  end.

Definition int_field (k : string) (v : json) : option Z :=
  match subscript v k with
  | Ok (JInt z) => Some z
  | _ => None
  end.

(** An optional sequence of name/value pairs held by an object. *)
Definition opt_pairs_field (k : string) (v : json)
  : option (option (list (string * string))) :=
  match v with
  | JObj m =>
      match assoc k m with
      | None => Some None
      | Some x =>
          match as_pairs x with
          | Some l => Some (Some l)
          | None => None
          end
      end
  | _ => None
  end.

(** The fields of an entry the script reads, with the types the HAR
    format gives them. *)
Record entry_view : Type := {
  ev_url : string;
  ev_method : string;
  ev_status : Z;
  ev_status_text : string;
  ev_headers : list (string * string);
  ev_query : option (list (string * string));
  ev_mime : option string;
  ev_text : option string
}.

Definition view_request (request : json)
  : option (string * string * list (string * string)
            * option (list (string * string))) :=
  match str_field "url" request, str_field "method" request,
        subscript request "headers" with
  | Some u, Some m, Ok headers =>
      match as_pairs headers, opt_pairs_field "queryString" request with
      | Some hs, Some q => Some (u, m, hs, q)
      | _, _ => None
      end
  | _, _, _ => None
  end.

Definition view_response (response : json)
  : option (Z * string * option string * option string) :=
  match int_field "status" response, str_field "statusText" response,
        subscript response "content" with
  | Some s, Some st, Ok content =>
      match opt_str_field "mimeType" content, opt_str_field "text" content with
      | Some mime, Some text => Some (s, st, mime, text)
      | _, _ => None
      end
  | _, _, _ => None
  end.

(** [Some] exactly on the entries that have every required field with its
    type. *)
Definition view_entry (entry : json) : option entry_view :=
  match subscript entry "request", subscript entry "response" with
  | Ok request, Ok response =>
      match view_request request, view_response response with
      | Some (u, m, hs, q), Some (s, st, mime, text) =>
          Some {| ev_url := u; ev_method := m; ev_status := s; ev_status_text := st;
                  ev_headers := hs; ev_query := q; ev_mime := mime; ev_text := text |}
      | _, _ => None
      end
  | _, _ => None
  end.

Fixpoint view_entries (es : list json) : option (list entry_view) :=
  match es with
  | [] => Some []
  | e :: es' =>
      match view_entry e, view_entries es' with
      | Some v, Some vs => Some (v :: vs)
      | _, _ => None
      end
  end.

Definition query_lines (q : option (list (string * string))) : list string :=
  match q with
  | Some (p :: ps) => "Query Params:" :: map pair_line (p :: ps)
  | _ => []
  end.

Definition body_lines (mime text : option string) (status : Z) : list string :=
  if json_mimeb mime then
    if (String.length (text_or_empty text) <? 1000)%nat
    then ["Response Body: " ++ text_or_empty text]
    else ["Response Body (truncated): " ++ substring 0 200 (text_or_empty text) ++ "..."]
  else if (400 <=? status)%Z
       then ["Error Response Body: " ++ substring 0 500 (text_or_empty text)]
       else [].

(** The lines of the report that a typed entry stands for. *)
Definition render (v : entry_view) : list string :=
  if relevant_urlb (ev_url v) then
    (block_head (ev_url v) (ev_method v) (ev_status v) (ev_status_text v) (ev_headers v)
       ++ query_lines (ev_query v)
       ++ body_lines (ev_mime v) (ev_text v) (ev_status v))%list
  else [].

(** ** More sample documents *)

(** A capture whose [entries] is an object, not a sequence. *)
Definition keyed_har : json :=
  JObj [("log", JObj [("entries", JObj [("first", login_entry); ("second", static_entry)])])].

(** A capture whose [entries] is [null]. *)
Definition null_entries_har : json := JObj [("log", JObj [("entries", JNull)])].

(** A document that is not a capture at all. *)
Definition no_log_doc : json := JObj [("version", JStr "1.2")].

(** The login entry as a browser exports it, with fields the script never
    reads. *)
Definition verbose_login_entry : json :=
  JObj [("time", JInt 12);
        ("request",
         JObj [("cookies", JArr [pair "session" "secret"]);
               ("method", JStr "POST");
               ("url", JStr "https://x.com/api/auth/login");
               ("postData", JObj [("text", JStr "password=hunter2")]);
               ("headers", JArr [pair "Host" "x.com"; pair "Accept" "*/*"]);
               ("queryString", JArr [pair "code" "abc"; pair "state" "xyz"])]);
        ("response",
         JObj [("headers", JArr [pair "Set-Cookie" "session=secret"]);
               ("status", JInt 200); ("statusText", JStr "Found");
               ("content", JObj [("size", JInt 2);
                                 ("mimeType", JStr "application/json; charset=utf-8");
                                 ("text", JStr "{}")])])].

(** The typed views of the entries of [sample_har]. *)
Definition sample_views : list entry_view :=
  Eval cbv in
    match view_entries [login_entry; static_entry; callback_entry] with
    | Some vs => vs
    | None => []
    end.

(** No URL of the list is relevant, and every entry has its request,
    response and URL. *)
Definition all_irrelevant (es : list json) : bool :=
  forallb (fun e => match entry_url e with
                    | Some u => negb (relevant_urlb u)
                    | None => false
                    end) es.

(** * Properties *)

(** ** Strings *)

Lemma prefix_iff (n h : string) :
  String.prefix n h = true <-> exists after, h = n ++ after.
Proof.
  revert h; induction n as [|a n IH]; intros h; simpl.
  - split; [intros _; exists h; reflexivity | intros _; destruct h; reflexivity].
  - destruct h as [|b h]; simpl.
    + split; [discriminate | intros [x Hx]; discriminate].
    + destruct (ascii_dec a b) as [->|Hab].
      * rewrite IH. split; intros [x Hx]; exists x.
        -- now rewrite Hx.
        -- now inversion Hx.
      * split; [discriminate | intros [x Hx]; inversion Hx; subst; now elim Hab].
Qed.

Lemma str_in_unfold (n h : string) :
  str_in n h =
  if String.prefix n h then true
  else match h with
       | EmptyString => false
       | String _ h' => str_in n h'
       end.
Proof. destruct h; reflexivity. Qed.

(** The substring test of the code decides literal containment. *)
Lemma str_in_iff (n h : string) :
  str_in n h = true <-> has_substring n h.
Proof.
  unfold has_substring. induction h as [|c h IH]; rewrite str_in_unfold.
  - destruct (String.prefix n "") eqn:E.
    + split; [intros _|reflexivity].
      apply prefix_iff in E. destruct E as [x Hx]. now exists "", x.
    + split; [discriminate|]. intros [a [b Hab]].
      destruct a; [|discriminate]. simpl in Hab.
      assert (String.prefix n "" = true) by (apply prefix_iff; now exists b).
      congruence.
  - destruct (String.prefix n (String c h)) eqn:E.
    + split; [intros _|reflexivity].
      apply prefix_iff in E. destruct E as [x Hx]. now exists "", x.
    + rewrite IH. split.
      * intros [a [b Hab]]. exists (String c a), b. simpl. now rewrite Hab.
      * intros [a [b Hab]]. destruct a as [|c' a].
        -- simpl in Hab.
           assert (String.prefix n (String c h) = true)
             by (apply prefix_iff; now exists b).
           congruence.
        -- simpl in Hab. inversion Hab. now exists a, b.
Qed.

(** [text[:k]] is the prefix of [text] of [min k (len text)] characters. *)
Lemma first_chars (k : nat) (s : string) :
  exists rest, s = substring 0 k s ++ rest /\
               String.length (substring 0 k s) = Nat.min k (String.length s).
Proof.
  revert k; induction s as [|c s IH]; intros k.
  - exists "". destruct k; simpl; auto.
  - destruct k as [|k]; simpl.
    + exists (String c s). auto.
    + destruct (IH k) as [rest [H1 H2]]. exists rest. split.
      * now rewrite <- H1.
      * now rewrite H2.
Qed.

(** ** Statements extend the trace *)

Lemma framed_ret {A : Type} (a : A) : framed (ret a).
Proof. intros t. unfold ret, emitted, outcome, run. simpl. now rewrite app_nil_r. Qed.

Lemma framed_lift {A : Type} (r : result A) : framed (lift r).
Proof. intros t. unfold lift, emitted, outcome, run. simpl. now rewrite app_nil_r. Qed.

Lemma framed_print (s : string) : framed (print s).
Proof. intros t. reflexivity. Qed.

Lemma framed_load (rt : runtime) (p : string) : framed (load rt p).
Proof. intros t. reflexivity. Qed.

Lemma framed_bind {A B : Type} (m : M A) (f : A -> M B) :
  framed m -> (forall a, framed (f a)) -> framed (bind m f).
Proof.
  intros Hm Hf t. unfold bind at 1. rewrite (Hm t).
  unfold emitted, outcome, run, bind.
  destruct (m []) as [o [a|e]]; simpl.
  - rewrite (Hf a (t ++ o)%list), (Hf a o). simpl. now rewrite app_assoc.
  - reflexivity.
Qed.

Lemma framed_if {A : Type} (b : bool) (m1 m2 : M A) :
  framed m1 -> framed m2 -> framed (if b then m1 else m2).
Proof. now destruct b. Qed.

Lemma framed_for_each {A : Type} (body : A -> M unit) (xs : list A) :
  (forall x, framed (body x)) -> framed (for_each body xs).
Proof.
  intros Hb. induction xs as [|x xs IH]; simpl.
  - apply framed_ret.
  - apply framed_bind; auto.
Qed.

Lemma framed_try_except (body : M unit) (handler : exn -> M unit) :
  framed body -> (forall e, framed (handler e)) -> framed (try_except body handler).
Proof.
  intros Hb Hh t. unfold try_except at 1. rewrite (Hb t).
  unfold emitted, outcome, run, try_except.
  destruct (body []) as [o [a|e]]; simpl.
  - reflexivity.
  - rewrite (Hh e (t ++ o)%list), (Hh e o). simpl. now rewrite app_assoc.
Qed.

Create HintDb framed.
#[local] Hint Resolve framed_ret framed_lift framed_print framed_load
  framed_if framed_for_each framed_try_except : framed.
#[local] Hint Extern 2 (framed (bind _ _)) => apply framed_bind; [ | intros ] : framed.

Ltac framed_steps :=
  unfold or_else;
  repeat first [ apply framed_bind; [ | intros ? ]
               | apply framed_if
               | solve [ auto with framed ] ].

Lemma framed_is_relevant (url : json) : framed (is_relevant url).
Proof. unfold is_relevant. framed_steps. Qed.

Lemma framed_print_pair (pair : json) : framed (print_pair pair).
Proof. unfold print_pair. framed_steps. Qed.
#[local] Hint Resolve framed_is_relevant framed_print_pair : framed.

Lemma framed_print_headers (request : json) : framed (print_headers request).
Proof. unfold print_headers. framed_steps. Qed.

Lemma framed_print_query_params (request : json) : framed (print_query_params request).
Proof. unfold print_query_params. framed_steps. Qed.

Lemma framed_is_json_content (content : json) : framed (is_json_content content).
Proof. unfold is_json_content. framed_steps. Qed.
#[local] Hint Resolve framed_is_json_content : framed.

Lemma framed_print_response_content (response : json) :
  framed (print_response_content response).
Proof. unfold print_response_content. framed_steps. Qed.
#[local] Hint Resolve framed_print_headers framed_print_query_params
  framed_print_response_content : framed.

Lemma framed_print_block (request response url : json) :
  framed (print_block request response url).
Proof. unfold print_block. framed_steps. Qed.
#[local] Hint Resolve framed_print_block : framed.

Lemma framed_process_entry (entry : json) : framed (process_entry entry).
Proof. unfold process_entry. framed_steps. Qed.
#[local] Hint Resolve framed_process_entry : framed.

Lemma framed_parse_har_body (rt : runtime) (p : string) : framed (parse_har_body rt p).
Proof. unfold parse_har_body. framed_steps. Qed.
#[local] Hint Resolve framed_parse_har_body : framed.

Lemma framed_parse_har (rt : runtime) (p : string) : framed (parse_har rt p).
Proof. unfold parse_har. framed_steps. Qed.

(** ** Loops *)

Lemma for_each_all_ok {A : Type} (body : A -> M unit) (xs : list A) (t : trace) :
  (forall x, framed (body x)) ->
  Forall (fun x => outcome (body x) = Ok tt) xs ->
  for_each body xs t = ((t ++ concat (map (fun x => emitted (body x)) xs))%list, Ok tt).
Proof.
  intros Hf Hok. revert t. induction Hok as [|x xs Hx Hxs IH]; intros t; simpl.
  - unfold ret. now rewrite app_nil_r.
  - unfold bind. rewrite (Hf x t), Hx, IH. now rewrite app_assoc.
Qed.

Lemma for_each_first_failure {A : Type} (body : A -> M unit)
      (pre : list A) (bad : A) (post : list A) (e : exn) (t : trace) :
  (forall x, framed (body x)) ->
  Forall (fun x => outcome (body x) = Ok tt) pre ->
  outcome (body bad) = Raise e ->
  for_each body (pre ++ bad :: post) t =
  ((t ++ concat (map (fun x => emitted (body x)) pre) ++ emitted (body bad))%list, Raise e).
Proof.
  intros Hf Hok Hbad. revert t. induction Hok as [|x xs Hx Hxs IH]; intros t; simpl.
  - unfold bind. now rewrite (Hf bad t), Hbad.
  - unfold bind. rewrite (Hf x t), Hx, IH. now rewrite !app_assoc.
Qed.

(** ** Name/value pairs *)

Lemma print_pair_ok (v : json) (p : string * string) (t : trace) :
  as_pair v = Some p ->
  print_pair v t = ((t ++ [Print (pair_line p)])%list, Ok tt).
Proof.
  unfold as_pair, print_pair, bind, lift, print, pair_line. intros H.
  destruct (subscript v "name") as [[| | |n| |]|]; try discriminate.
  destruct (subscript v "value") as [[| | |x| |]|]; try discriminate.
  now inversion H.
Qed.

Lemma print_pairs_ok (l : list json) (ps : list (string * string)) (t : trace) :
  as_pair_list l = Some ps ->
  for_each print_pair l t = ((t ++ map Print (map pair_line ps))%list, Ok tt).
Proof.
  revert ps t. induction l as [|v l IH]; intros ps t H; simpl in H.
  - inversion H. simpl. unfold ret. now rewrite app_nil_r.
  - destruct (as_pair v) as [p|] eqn:Ep; [|discriminate].
    destruct (as_pair_list l) as [ps'|] eqn:El; [|discriminate].
    inversion H; subst. simpl. unfold bind.
    rewrite (print_pair_ok _ _ _ Ep), (IH _ _ eq_refl). simpl.
    now rewrite <- app_assoc.
Qed.

Lemma print_pairs_first_failure (good : list json) (bad : json) (rest : list json)
      (ps : list (string * string)) (e : exn) (t : trace) :
  as_pair_list good = Some ps ->
  print_pair bad [] = ([], Raise e) ->
  for_each print_pair (good ++ bad :: rest) t =
  ((t ++ map Print (map pair_line ps))%list, Raise e).
Proof.
  revert ps t. induction good as [|v l IH]; intros ps t H Hbad; simpl in H.
  - inversion H. simpl. unfold bind.
    rewrite (framed_print_pair bad t). unfold emitted, outcome, run.
    now rewrite Hbad.
  - destruct (as_pair v) as [p|] eqn:Ep; [|discriminate].
    destruct (as_pair_list l) as [ps'|] eqn:El; [|discriminate].
    inversion H; subst. simpl. unfold bind.
    rewrite (print_pair_ok _ _ _ Ep), (IH _ _ eq_refl Hbad). simpl.
    now rewrite <- app_assoc.
Qed.

Lemma subscript_lacks (k : string) (v : json) :
  lacks k v -> subscript v k = Raise (KeyError k).
Proof. intros [m [-> H]]. simpl. now rewrite H. Qed.

Lemma subscript_get (v : json) (k : string) (x d : json) :
  subscript v k = Ok x -> get v k d = Ok x.
Proof.
  destruct v; simpl; try discriminate.
  destruct (assoc k members); [auto | discriminate].
Qed.

Lemma get_lacks (k : string) (v d : json) : lacks k v -> get v k d = Ok d.
Proof. intros [m [-> H]]. simpl. now rewrite H. Qed.

(** ** The document level *)

Lemma parse_har_body_loaded (rt : runtime) (p : string) (es : list json) (t : trace) :
  loaded_entries rt p = Ok (JArr es) ->
  parse_har_body rt p t =
  for_each process_entry es (t ++ [Open p; Print (total_line (List.length es))])%list.
Proof.
  unfold loaded_entries, parse_har_body, bind, load, lift, print, total_line. intros H.
  destruct (read_text rt p) as [text|]; [|discriminate].
  destruct (json_loads rt text) as [doc|]; [|discriminate].
  destruct (subscript doc "log") as [log|]; [|discriminate].
  rewrite H. simpl. now rewrite <- app_assoc.
Qed.

Lemma parse_har_body_not_loaded (rt : runtime) (p : string) (e : exn) (t : trace) :
  loaded_entries rt p = Raise e ->
  parse_har_body rt p t = ((t ++ [Open p])%list, Raise e).
Proof.
  unfold loaded_entries, parse_har_body, bind, load, lift. intros H.
  destruct (read_text rt p) as [text|]; [|now inversion H].
  destruct (json_loads rt text) as [doc|]; [|now inversion H].
  destruct (subscript doc "log") as [log|]; [|now inversion H].
  now rewrite H.
Qed.

(** The handler turns a raised exception into one more printed line. *)
Lemma parse_har_handles (rt : runtime) (p : string) (t t' : trace) (e : exn) :
  parse_har_body rt p t = (t', Raise e) ->
  parse_har rt p t = ((t' ++ [Print (error_line e)])%list, Ok tt).
Proof. unfold parse_har, try_except. intros ->. reflexivity. Qed.

Lemma parse_har_passes (rt : runtime) (p : string) (t t' : trace) (u : unit) :
  parse_har_body rt p t = (t', Ok u) ->
  parse_har rt p t = (t', Ok tt).
Proof. unfold parse_har, try_except. intros ->. reflexivity. Qed.

Lemma parse_har_first_failure (rt : runtime) (p : string)
      (pre : list json) (bad : json) (post : list json) (e : exn) (t : trace) :
  loaded_entries rt p = Ok (JArr (pre ++ bad :: post)) ->
  Forall entry_ok pre ->
  outcome (process_entry bad) = Raise e ->
  parse_har rt p t =
  ((t ++ [Open p; Print (total_line (List.length (pre ++ bad :: post)))]
      ++ blocks pre ++ emitted (process_entry bad) ++ [Print (error_line e)])%list,
   Ok tt).
Proof.
  intros Hl Hpre Hbad.
  erewrite parse_har_handles.
  2:{ rewrite (parse_har_body_loaded _ _ _ _ Hl).
      apply for_each_first_failure; eauto using framed_process_entry. }
  unfold blocks. now rewrite <- !app_assoc.
Qed.

(** ** The URL filter *)

Lemma relevant_url_iff (u : string) : relevant_urlb u = true <-> relevant_url u.
Proof.
  unfold relevant_urlb, relevant_url.
  rewrite !orb_true_iff, !str_in_iff. tauto.
Qed.

Lemma is_relevant_str (u : string) (t : trace) :
  is_relevant (JStr u) t = (t, Ok (relevant_urlb u)).
Proof.
  unfold is_relevant, or_else, bind, lift, ret, relevant_urlb. simpl.
  destruct (str_in "api/auth" u); simpl; [reflexivity|].
  destruct (str_in "api/oauth" u); reflexivity.
Qed.

Lemma process_entry_filtered (entry request response : json) (u : string) (t : trace) :
  subscript entry "request" = Ok request ->
  subscript entry "response" = Ok response ->
  subscript request "url" = Ok (JStr u) ->
  process_entry entry t =
  if relevant_urlb u then print_block request response (JStr u) t else (t, Ok tt).
Proof.
  intros Hreq Hresp Hurl. unfold process_entry, bind, lift.
  rewrite Hreq, Hresp, Hurl, is_relevant_str.
  now destruct (relevant_urlb u).
Qed.

Lemma print_then {B : Type} (line : string) (k : M B) (t : trace) :
  framed k ->
  (print line ;; k) t = ((t ++ Print line :: emitted k)%list, outcome k).
Proof.
  intros Hk. unfold bind, print. rewrite (Hk (t ++ [Print line])%list).
  now rewrite <- app_assoc.
Qed.

Lemma print_block_starts (request response : json) (u : string) (t : trace) :
  exists rest,
    fst (print_block request response (JStr u) t) =
    (t ++ Print separator :: Print ("URL: " ++ u) :: rest)%list.
Proof.
  unfold print_block. rewrite print_then by framed_steps.
  unfold emitted at 1, run. rewrite print_then by framed_steps.
  simpl. eexists. reflexivity.
Qed.

(** C3: for an entry with a request, a response and a string URL, a block
    is emitted exactly when the URL contains "api/auth", "api/oauth" or
    "callback" as a literal substring; otherwise the entry prints nothing
    and the loop goes on. *)
Theorem url_filter_decides_block
        (entry request response : json) (u : string) :
  subscript entry "request" = Ok request ->
  subscript entry "response" = Ok response ->
  subscript request "url" = Ok (JStr u) ->
  ((exists rest, emitted (process_entry entry) =
                 Print separator :: Print ("URL: " ++ u) :: rest)
   <-> relevant_url u) /\
  (~ relevant_url u -> forall t, process_entry entry t = (t, Ok tt)).
Proof.
  intros Hreq Hresp Hurl.
  pose proof (process_entry_filtered _ _ _ _ [] Hreq Hresp Hurl) as Hrun.
  rewrite <- relevant_url_iff. split; [split|].
  - intros [rest Hrest]. unfold emitted, run in Hrest. rewrite Hrun in Hrest.
    destruct (relevant_urlb u); [reflexivity | discriminate].
  - intros Hrel. unfold emitted, run. rewrite Hrun, Hrel.
    destruct (print_block_starts request response u []) as [rest Hrest].
    exists rest. exact Hrest.
  - intros Hno t. rewrite (process_entry_filtered _ _ _ _ t Hreq Hresp Hurl).
    now destruct (relevant_urlb u).
Qed.

Lemma url_filter_decides_block_witness :
  process_entry static_entry [] = ([], Ok tt) /\
  exists rest,
    emitted (process_entry login_entry) =
    Print separator :: Print "URL: https://x.com/api/auth/login" :: rest.
Proof.
  split.
  - apply (proj2 (url_filter_decides_block static_entry
                    (sample_request "https://x.com/static/app.js" [])
                    (sample_response 200 [("content", JObj [])])
                    "https://x.com/static/app.js" eq_refl eq_refl eq_refl)).
    intros H. apply relevant_url_iff in H. discriminate.
  - apply (proj2 (proj1 (url_filter_decides_block login_entry
                    (sample_request "https://x.com/api/auth/login" sample_query)
                    (sample_response 200 [("content", json_content "{}")])
                    "https://x.com/api/auth/login" eq_refl eq_refl eq_refl))).
    apply relevant_url_iff. reflexivity.
Defined.

(** The match is literal and case-sensitive. *)
Example filter_is_case_sensitive :
  relevant_url "https://x.com/oauth/callback" /\
  ~ relevant_url "https://x.com/OAuth/Callback" /\
  ~ relevant_url "https://x.com/api-auth".
Proof.
  rewrite <- !relevant_url_iff. repeat split; discriminate.
Qed.

(** ** The block of a relevant entry *)

Lemma print_headers_ok (request headers : json) (nvs : list (string * string)) (t : trace) :
  subscript request "headers" = Ok headers ->
  as_pairs headers = Some nvs ->
  print_headers request t =
  ((t ++ Print "Headers:" :: map Print (map pair_line nvs))%list, Ok tt).
Proof.
  intros Hh Hp. unfold print_headers, bind, lift, print. rewrite Hh.
  destruct headers as [| | | |l|]; try discriminate. simpl in Hp |- *.
  rewrite (print_pairs_ok _ _ _ Hp). now rewrite <- app_assoc.
Qed.

Lemma print_block_head (request response headers : json)
      (u m : string) (s : Z) (st : string) (nvs : list (string * string)) (t : trace) :
  subscript request "method" = Ok (JStr m) ->
  subscript response "status" = Ok (JInt s) ->
  subscript response "statusText" = Ok (JStr st) ->
  subscript request "headers" = Ok headers ->
  as_pairs headers = Some nvs ->
  print_block request response (JStr u) t =
  (print_query_params request ;; print_response_content response)
    (t ++ map Print (block_head u m s st nvs))%list.
Proof.
  intros Hm Hs Hst Hh Hp. unfold print_block.
  unfold bind at 1 2 3 4 5 6 7 8. unfold lift, print.
  rewrite Hm, Hs, Hst. rewrite (print_headers_ok _ _ _ _ Hh Hp).
  unfold block_head. simpl str. rewrite map_app. simpl map at 1.
  now rewrite <- !app_assoc.
Qed.

(** C4: the block of a relevant, well-formed entry opens with a line of
    80 dashes, then the URL, Method and Status lines from the input, the
    Headers label, and one indented line per header in the input's order
    (none when there is no header); only the query and body lines follow. *)
Theorem block_layout
        (entry request response headers : json)
        (u m : string) (s : Z) (st : string) (nvs : list (string * string)) (t : trace) :
  subscript entry "request" = Ok request ->
  subscript entry "response" = Ok response ->
  subscript request "url" = Ok (JStr u) ->
  relevant_url u ->
  subscript request "method" = Ok (JStr m) ->
  subscript response "status" = Ok (JInt s) ->
  subscript response "statusText" = Ok (JStr st) ->
  subscript request "headers" = Ok headers ->
  as_pairs headers = Some nvs ->
  fst (process_entry entry t) =
  (t ++ map Print ([separator; ("URL: " ++ u)%string; ("Method: " ++ m)%string;
                    ("Status: " ++ str_of_Z s ++ " " ++ st)%string; "Headers:"]
                   ++ map (fun nv => ("  " ++ fst nv ++ ": " ++ snd nv)%string) nvs)
     ++ emitted (print_query_params request ;; print_response_content response))%list
  /\ separator = string_of_list_ascii (repeat "-"%char 80).
Proof.
  intros Hreq Hresp Hurl Hrel Hm Hs Hst Hh Hp. split; [|reflexivity].
  rewrite (process_entry_filtered _ _ _ _ t Hreq Hresp Hurl).
  apply relevant_url_iff in Hrel. rewrite Hrel.
  rewrite (print_block_head _ _ _ _ _ _ _ _ _ Hm Hs Hst Hh Hp).
  match goal with
  | |- fst (?k ?t0) = _ =>
      assert (framed k) as Hk by framed_steps; rewrite (Hk t0)
  end.
  simpl fst. now rewrite <- app_assoc.
Qed.

Lemma block_layout_witness :
  fst (process_entry login_entry []) =
  ([] ++ map Print ([separator; ("URL: " ++ "https://x.com/api/auth/login")%string;
                     ("Method: " ++ "POST")%string;
                     ("Status: " ++ str_of_Z 200 ++ " " ++ "Found")%string; "Headers:"]
                    ++ map (fun nv => ("  " ++ fst nv ++ ": " ++ snd nv)%string)
                         [("Host", "x.com"); ("Accept", "*/*")])
      ++ emitted (print_query_params (sample_request "https://x.com/api/auth/login" sample_query) ;;
                  print_response_content (sample_response 200 [("content", json_content "{}")])))%list
  /\ separator = string_of_list_ascii (repeat "-"%char 80).
Proof.
  apply (block_layout login_entry
           (sample_request "https://x.com/api/auth/login" sample_query)
           (sample_response 200 [("content", json_content "{}")])
           (JArr [pair "Host" "x.com"; pair "Accept" "*/*"])
           "https://x.com/api/auth/login" "POST" 200 "Found"
           [("Host", "x.com"); ("Accept", "*/*")] []);
    try reflexivity.
  apply relevant_url_iff. reflexivity.
Defined.

(** C6: the Query Params block (label, then one indented line per
    parameter in the input's order) is printed when [queryString] is
    present and non-empty; when the key is absent or holds an empty
    sequence nothing is printed, not even the label. *)
Theorem query_params_block (request : json) (t : trace) :
  (lacks "queryString" request ->
   print_query_params request t = (t, Ok tt)) /\
  (subscript request "queryString" = Ok (JArr []) ->
   print_query_params request t = (t, Ok tt)) /\
  (forall qs nvs,
      subscript request "queryString" = Ok qs ->
      as_pairs qs = Some nvs ->
      nvs <> [] ->
      print_query_params request t =
      ((t ++ map Print ("Query Params:"
                        :: map (fun nv => ("  " ++ fst nv ++ ": " ++ snd nv)%string) nvs))%list,
       Ok tt)).
Proof.
  unfold print_query_params, bind, lift, ret, print. repeat split.
  - intros H. now rewrite (get_lacks _ _ JNull H).
  - intros H. now rewrite (subscript_get _ _ _ JNull H).
  - intros qs nvs Hq Hp Hne.
    rewrite (subscript_get _ _ _ JNull Hq), Hq.
    destruct qs as [| | | |l|]; try discriminate. simpl in Hp.
    destruct l as [|v l]; [simpl in Hp; congruence|].
    change (truthy (JArr (v :: l))) with true.
    change (iter (JArr (v :: l))) with (Ok (v :: l)). cbv beta iota.
    rewrite (print_pairs_ok _ _ _ Hp). now rewrite <- app_assoc.
Qed.

Lemma query_params_block_witness :
  print_query_params (sample_request "https://x.com/callback" []) [] = ([], Ok tt) /\
  print_query_params (sample_request "https://x.com/callback" [("queryString", JArr [])]) []
  = ([], Ok tt) /\
  print_query_params (sample_request "https://x.com/callback" sample_query) [] =
  ([Print "Query Params:"; Print "  code: abc"; Print "  state: xyz"], Ok tt).
Proof.
  split; [|split].
  - apply (proj1 (query_params_block (sample_request "https://x.com/callback" []) [])).
    eexists. split; reflexivity.
  - apply (proj1 (proj2 (query_params_block
             (sample_request "https://x.com/callback" [("queryString", JArr [])]) []))).
    reflexivity.
  - apply (proj2 (proj2 (query_params_block
             (sample_request "https://x.com/callback" sample_query) []))
             (JArr [pair "code" "abc"; pair "state" "xyz"])
             [("code", "abc"); ("state", "xyz")]);
      [reflexivity | reflexivity | discriminate].
Defined.

(** ** The response body *)

Lemma json_mime_iff (mime : option string) : json_mimeb mime = true <-> json_mime mime.
Proof.
  unfold json_mime, json_mimeb. destruct mime as [m|].
  - rewrite str_in_iff. split.
    + intros H. now exists m.
    + intros [m' [E H]]. now inversion E.
  - split; [discriminate | intros [m' [E _]]; discriminate].
Qed.

Lemma is_json_content_typed (content : json) (mime : option string) (t : trace) :
  opt_str_field "mimeType" content = Some mime ->
  is_json_content content t = (t, Ok (json_mimeb mime)).
Proof.
  unfold opt_str_field, is_json_content, bind, lift, ret. intros H.
  destruct content as [| | | | |c]; try discriminate. simpl.
  destruct (assoc "mimeType" c) as [[| | |m| |]|]; try discriminate;
    inversion H; subst; simpl; [|reflexivity].
  destruct m; reflexivity.
Qed.

Lemma get_text_typed (content : json) (text : option string) :
  opt_str_field "text" content = Some text ->
  get content "text" (JStr "") = Ok (JStr (text_or_empty text)).
Proof.
  unfold opt_str_field. intros H.
  destruct content as [| | | | |c]; try discriminate. simpl.
  destruct (assoc "text" c) as [[| | |s| |]|]; try discriminate;
    now inversion H.
Qed.

(** C1: the body line of a block is chosen by a priority chain.  A mime
    type containing "application/json" comes first: the text (empty when
    absent) is printed whole when shorter than 1000 characters and cut to
    its first 200 characters followed by "..." otherwise.  Failing that, a
    status of 400 or more prints the first 500 characters of the text.
    Failing both, nothing is printed. *)
Theorem response_body_priority_chain
        (response content : json) (mime text : option string) (t : trace) :
  subscript response "content" = Ok content ->
  opt_str_field "mimeType" content = Some mime ->
  opt_str_field "text" content = Some text ->
  (json_mime mime -> String.length (text_or_empty text) < 1000 ->
   print_response_content response t =
   ((t ++ [Print ("Response Body: " ++ text_or_empty text)])%list, Ok tt)) /\
  (json_mime mime -> 1000 <= String.length (text_or_empty text) ->
   print_response_content response t =
   ((t ++ [Print ("Response Body (truncated): "
                  ++ substring 0 200 (text_or_empty text) ++ "...")])%list, Ok tt)) /\
  (~ json_mime mime ->
   forall status, subscript response "status" = Ok (JInt status) ->
   (400 <= status)%Z ->
   print_response_content response t =
   ((t ++ [Print ("Error Response Body: "
                  ++ substring 0 500 (text_or_empty text))])%list, Ok tt)) /\
  (~ json_mime mime ->
   forall status, subscript response "status" = Ok (JInt status) ->
   (status < 400)%Z ->
   print_response_content response t = (t, Ok tt)).
Proof.
  intros Hc Hm Ht.
  assert (Hrun : print_response_content response t =
                 if json_mimeb mime then
                   if (String.length (text_or_empty text) <? 1000)%nat
                   then print ("Response Body: " ++ text_or_empty text) t
                   else print ("Response Body (truncated): "
                               ++ substring 0 200 (text_or_empty text) ++ "...") t
                 else
                   (status <- lift (subscript response "status") ;;
                    is_error <- lift (ge_int status 400) ;;
                    if is_error then
                      print ("Error Response Body: "
                             ++ substring 0 500 (text_or_empty text))
                    else ret tt) t).
  { unfold print_response_content. unfold bind at 1 2. unfold lift at 1.
    rewrite Hc, (is_json_content_typed _ _ _ Hm).
    destruct (json_mimeb mime).
    - unfold bind, lift. rewrite (get_text_typed _ _ Ht). simpl.
      now destruct (String.length (text_or_empty text) <? 1000)%nat.
    - unfold bind, lift. destruct (subscript response "status") as [st|]; [|reflexivity].
      destruct (ge_int st 400) as [[|]|]; try reflexivity.
      now rewrite (get_text_typed _ _ Ht). }
  rewrite Hrun. rewrite <- json_mime_iff. repeat split.
  - intros Hj Hlen. rewrite Hj.
    apply Nat.ltb_lt in Hlen. now rewrite Hlen.
  - intros Hj Hlen. rewrite Hj.
    apply Nat.ltb_ge in Hlen. now rewrite Hlen.
  - intros Hj status Hs Hge. apply not_true_is_false in Hj. rewrite Hj.
    unfold bind, lift. rewrite Hs. simpl.
    apply Z.leb_le in Hge. now rewrite Hge.
  - intros Hj status Hs Hlt. apply not_true_is_false in Hj. rewrite Hj.
    unfold bind, lift. rewrite Hs. simpl.
    apply Z.leb_gt in Hlt. now rewrite Hlt.
Qed.

Lemma response_body_priority_chain_witness :
  print_response_content (sample_response 200 [("content", json_content "{}")]) []
  = ([Print "Response Body: {}"], Ok tt) /\
  print_response_content (sample_response 200 [("content", json_content long_text)]) []
  = ([Print ("Response Body (truncated): " ++ substring 0 200 long_text ++ "...")], Ok tt) /\
  print_response_content
    (sample_response 404 [("content", JObj [("text", JStr "not found")])]) []
  = ([Print "Error Response Body: not found"], Ok tt) /\
  print_response_content
    (sample_response 302 [("content", JObj [("mimeType", JStr "text/html")])]) []
  = ([], Ok tt).
Proof.
  split; [|split; [|split]].
  - apply (proj1 (response_body_priority_chain
                    (sample_response 200 [("content", json_content "{}")])
                    (json_content "{}")
                    (Some "application/json; charset=utf-8") (Some "{}") []
                    eq_refl eq_refl eq_refl)).
    + apply json_mime_iff. reflexivity.
    + simpl. lia.
  - apply (proj1 (proj2 (response_body_priority_chain
                    (sample_response 200 [("content", json_content long_text)])
                    (json_content long_text)
                    (Some "application/json; charset=utf-8") (Some long_text) []
                    eq_refl eq_refl eq_refl))).
    + apply json_mime_iff. reflexivity.
    + apply Nat.leb_le. vm_compute. reflexivity.
  - apply (proj1 (proj2 (proj2 (response_body_priority_chain
                    (sample_response 404 [("content", JObj [("text", JStr "not found")])])
                    (JObj [("text", JStr "not found")])
                    None (Some "not found") []
                    eq_refl eq_refl eq_refl))) ltac:(intros H; apply json_mime_iff in H; discriminate)
                    404%Z eq_refl).
    lia.
  - apply (proj2 (proj2 (proj2 (response_body_priority_chain
                    (sample_response 302 [("content", JObj [("mimeType", JStr "text/html")])])
                    (JObj [("mimeType", JStr "text/html")])
                    (Some "text/html") None []
                    eq_refl eq_refl eq_refl))) ltac:(intros H; apply json_mime_iff in H; discriminate)
                    302%Z eq_refl).
    lia.
Defined.

(** ** The whole document *)

Lemma entry_url_some (entry : json) (u : string) :
  entry_url entry = Some u ->
  exists request response,
    subscript entry "request" = Ok request /\
    subscript entry "response" = Ok response /\
    subscript request "url" = Ok (JStr u).
Proof.
  unfold entry_url. intros H.
  destruct (subscript entry "request") as [request|]; [|discriminate].
  destruct (subscript entry "response") as [response|]; [|discriminate].
  destruct (subscript request "url") as [[| | |u'| |]|] eqn:Eu; try discriminate.
  inversion H; subst. now exists request, response.
Qed.

Lemma blocks_cons (e : json) (es : list json) :
  blocks (e :: es) = (emitted (process_entry e) ++ blocks es)%list.
Proof. reflexivity. Qed.

(** Entries the filter drops add nothing: the blocks of a list are the
    blocks of its matching entries, in the same order. *)
Lemma blocks_of_matching (es : list json) :
  Forall (fun e => entry_url e <> None) es ->
  blocks es = blocks (filter matching es).
Proof.
  induction 1 as [|e es He Hes IH]; [reflexivity|].
  rewrite blocks_cons, IH. cbn [filter].
  destruct (entry_url e) as [u|] eqn:Eu; [|congruence].
  destruct (entry_url_some _ _ Eu) as [rq [rs [H1 [H2 H3]]]].
  assert (Hm : matching e = relevant_urlb u) by (unfold matching; now rewrite Eu).
  rewrite Hm. destruct (relevant_urlb u) eqn:Er; [now rewrite blocks_cons|].
  unfold emitted at 1, run. rewrite (process_entry_filtered _ _ _ _ [] H1 H2 H3), Er.
  reflexivity.
Qed.

(** C5: once [log.entries] has loaded as a sequence of N entries, the
    first line printed is "Total entries: N", ahead of everything the
    entries print; when every entry runs to its end, what follows is the
    blocks of the matching entries in the order of the sequence. *)
Theorem total_first_then_blocks_in_order
        (rt : runtime) (file_path : string) (es : list json) :
  loaded_entries rt file_path = Ok (JArr es) ->
  (exists rest,
      printed (fst (run (parse_har rt file_path))) =
      ("Total entries: " ++ str_of_nat (List.length es))%string :: rest) /\
  (Forall entry_ok es ->
   forall t,
     parse_har rt file_path t =
     ((t ++ Open file_path
         :: Print ("Total entries: " ++ str_of_nat (List.length es))
         :: concat (map (fun e => emitted (process_entry e)) es))%list, Ok tt)) /\
  (Forall entry_ok es ->
   Forall (fun e => entry_url e <> None) es ->
   printed (fst (run (parse_har rt file_path))) =
   ("Total entries: " ++ str_of_nat (List.length es))%string
     :: printed (concat (map (fun e => emitted (process_entry e)) (filter matching es)))).
Proof.
  intros Hl.
  assert (Hall : Forall entry_ok es ->
                 forall t, parse_har rt file_path t =
                           ((t ++ Open file_path
                               :: Print (total_line (List.length es)) :: blocks es)%list,
                            Ok tt)).
  { intros Hok t. eapply parse_har_passes.
    rewrite (parse_har_body_loaded _ _ _ _ Hl).
    rewrite (for_each_all_ok process_entry es _ framed_process_entry Hok).
    rewrite <- app_assoc. reflexivity. }
  split; [|split].
  - unfold run, parse_har, try_except.
    rewrite (parse_har_body_loaded _ _ _ _ Hl).
    rewrite (framed_for_each process_entry es framed_process_entry _).
    destruct (outcome (for_each process_entry es)) as [u|e].
    + simpl. eexists. reflexivity.
    + unfold print. simpl. eexists. reflexivity.
  - exact Hall.
  - intros Hok Hurl. unfold run. rewrite (Hall Hok []).
    rewrite (blocks_of_matching es Hurl). reflexivity.
Qed.

Lemma total_first_then_blocks_in_order_witness :
  printed (fst (run (parse_har (machine sample_har) "capture.har"))) =
  [ "Total entries: 3";
    separator; "URL: https://x.com/api/auth/login"; "Method: POST"; "Status: 200 Found";
    "Headers:"; "  Host: x.com"; "  Accept: */*";
    "Query Params:"; "  code: abc"; "  state: xyz"; "Response Body: {}";
    separator; "URL: https://x.com/callback"; "Method: POST"; "Status: 404 Found";
    "Headers:"; "  Host: x.com"; "  Accept: */*"; "Error Response Body: not found" ].
Proof.
  refine (eq_trans
            (proj2 (proj2 (total_first_then_blocks_in_order
                             (machine sample_har) "capture.har"
                             [login_entry; static_entry; callback_entry] eq_refl))
                   _ _) _).
  - repeat constructor.
  - repeat constructor; discriminate.
  - reflexivity.
Defined.

(** C2: the single handler.  No exception leaves [parse_har].  When the
    protected body raises, everything it had printed stays and exactly one
    line "Error parsing HAR: <message>" is added after it.  A failure to
    load prints that line alone; a failure in an entry keeps the total
    line, the blocks of the entries before it and what the failing entry
    had printed, and nothing of the entries after it. *)
Theorem failure_is_caught_once (rt : runtime) (file_path : string) (t : trace) :
  snd (parse_har rt file_path t) = Ok tt /\
  (forall t' e,
      parse_har_body rt file_path t = (t', Raise e) ->
      parse_har rt file_path t =
      ((t' ++ [Print ("Error parsing HAR: " ++ exn_str e)])%list, Ok tt)) /\
  (forall e,
      loaded_entries rt file_path = Raise e ->
      parse_har rt file_path t =
      ((t ++ [Open file_path; Print ("Error parsing HAR: " ++ exn_str e)])%list, Ok tt)) /\
  (forall pre bad post e,
      loaded_entries rt file_path = Ok (JArr (pre ++ bad :: post)) ->
      Forall entry_ok pre ->
      outcome (process_entry bad) = Raise e ->
      parse_har rt file_path t =
      ((t ++ [Open file_path;
              Print ("Total entries: " ++ str_of_nat (List.length (pre ++ bad :: post)))]
          ++ concat (map (fun x => emitted (process_entry x)) pre)
          ++ emitted (process_entry bad)
          ++ [Print ("Error parsing HAR: " ++ exn_str e)])%list, Ok tt)).
Proof.
  split; [|split; [|split]].
  - unfold parse_har, try_except, print.
    now destruct (parse_har_body rt file_path t) as [t' [u|e]].
  - intros t' e H. exact (parse_har_handles _ _ _ _ _ H).
  - intros e H. rewrite (parse_har_handles _ _ _ _ _ (parse_har_body_not_loaded _ _ _ t H)).
    now rewrite <- app_assoc.
  - intros pre bad post e Hl Hpre Hbad.
    exact (parse_har_first_failure _ _ _ _ _ _ t Hl Hpre Hbad).
Qed.

Lemma failure_is_caught_once_witness :
  parse_har (machine broken_har) "missing.har" [] =
  ([Open "missing.har";
    Print "Error parsing HAR: [Errno 2] No such file or directory: 'missing.har'"], Ok tt) /\
  parse_har (machine broken_har) "capture.har" [] =
  ([Open "capture.har"; Print "Total entries: 3";
    Print separator; Print "URL: https://x.com/api/auth/login"; Print "Method: POST";
    Print "Status: 200 Found"; Print "Headers:"; Print "  Host: x.com";
    Print "  Accept: */*"; Print "Query Params:"; Print "  code: abc";
    Print "  state: xyz"; Print "Response Body: {}";
    Print "Error parsing HAR: 'response'"], Ok tt).
Proof.
  split.
  - apply (proj1 (proj2 (proj2 (failure_is_caught_once
                                  (machine broken_har) "missing.har" [])))
                 (LoadError "[Errno 2] No such file or directory: 'missing.har'")).
    reflexivity.
  - apply (proj2 (proj2 (proj2 (failure_is_caught_once
                                  (machine broken_har) "capture.har" [])))
                 [login_entry] no_response_entry [callback_entry]
                 (KeyError "response")).
    + reflexivity.
    + repeat constructor.
    + reflexivity.
Defined.

(** ** Malformed entries *)

Lemma process_entry_no_request (entry : json) (t : trace) :
  lacks "request" entry ->
  process_entry entry t = (t, Raise (KeyError "request")).
Proof.
  intros H. unfold process_entry, bind, lift. now rewrite (subscript_lacks _ _ H).
Qed.

Lemma process_entry_no_response (entry request : json) (t : trace) :
  subscript entry "request" = Ok request ->
  lacks "response" entry ->
  process_entry entry t = (t, Raise (KeyError "response")).
Proof.
  intros Hr H. unfold process_entry, bind, lift.
  now rewrite Hr, (subscript_lacks _ _ H).
Qed.

Lemma process_entry_no_url (entry request response : json) (t : trace) :
  subscript entry "request" = Ok request ->
  subscript entry "response" = Ok response ->
  lacks "url" request ->
  process_entry entry t = (t, Raise (KeyError "url")).
Proof.
  intros Hr Hs H. unfold process_entry, bind, lift.
  now rewrite Hr, Hs, (subscript_lacks _ _ H).
Qed.

(** C9: [entry.request], [entry.response] and [request.url] are read
    before the filter looks at the URL.  An entry without a request or
    without a response raises before printing anything, whatever its URL;
    the run then stops there with the error line, and nothing of the later
    entries is printed.  The sample is an entry for a static file, which
    the filter would have dropped. *)
Theorem fields_read_before_filter :
  (forall entry t,
      lacks "request" entry ->
      process_entry entry t = (t, Raise (KeyError "request"))) /\
  (forall entry request t,
      subscript entry "request" = Ok request ->
      lacks "response" entry ->
      process_entry entry t = (t, Raise (KeyError "response"))) /\
  (forall entry request response t,
      subscript entry "request" = Ok request ->
      subscript entry "response" = Ok response ->
      lacks "url" request ->
      process_entry entry t = (t, Raise (KeyError "url"))) /\
  (forall rt file_path pre bad post key t,
      loaded_entries rt file_path = Ok (JArr (pre ++ bad :: post)) ->
      Forall entry_ok pre ->
      (key = "request" /\ lacks "request" bad) \/
      (key = "response" /\ lacks "response" bad /\
       exists request, subscript bad "request" = Ok request) ->
      parse_har rt file_path t =
      ((t ++ [Open file_path;
              Print ("Total entries: " ++ str_of_nat (List.length (pre ++ bad :: post)))]
          ++ concat (map (fun x => emitted (process_entry x)) pre)
          ++ [Print ("Error parsing HAR: '" ++ key ++ "'")])%list, Ok tt)) /\
  (exists bad request u,
      subscript bad "request" = Ok request /\
      subscript request "url" = Ok (JStr u) /\
      ~ relevant_url u /\
      lacks "response" bad /\
      forall post,
        run (parse_har (machine (har_of (bad :: post))) "capture.har") =
        ([Open "capture.har";
          Print ("Total entries: " ++ str_of_nat (S (List.length post)));
          Print "Error parsing HAR: 'response'"], Ok tt)).
Proof.
  split; [|split; [|split; [|split]]].
  - intros entry t H. exact (process_entry_no_request _ t H).
  - intros entry request t Hr H. exact (process_entry_no_response _ _ t Hr H).
  - intros entry request response t Hr Hs H. exact (process_entry_no_url _ _ _ t Hr Hs H).
  - intros rt file_path pre bad post key t Hl Hpre Hbad.
    assert (Hrun : process_entry bad [] = ([], Raise (KeyError key))).
    { destruct Hbad as [[-> H]|[-> [H [request Hr]]]].
      - exact (process_entry_no_request _ [] H).
      - exact (process_entry_no_response _ _ [] Hr H). }
    rewrite (parse_har_first_failure rt file_path pre bad post (KeyError key) t Hl Hpre).
    + unfold emitted, run. rewrite Hrun. simpl fst. cbn [app].
      unfold error_line, blocks, total_line.
      destruct Hbad as [[-> _]|[-> _]]; reflexivity.
    + unfold outcome, run. now rewrite Hrun.
  - exists no_response_entry, (sample_request "https://x.com/static/app.js" []),
      "https://x.com/static/app.js".
    split; [reflexivity|]. split; [reflexivity|]. split.
    + intros H. apply relevant_url_iff in H. discriminate.
    + split; [eexists; split; reflexivity|].
      intros post. unfold run.
      rewrite (parse_har_first_failure (machine (har_of (no_response_entry :: post)))
                 "capture.har" [] no_response_entry post (KeyError "response") []);
        [reflexivity | reflexivity | constructor | reflexivity].
Qed.

Lemma fields_read_before_filter_witness :
  parse_har (machine broken_har) "capture.har" [] =
  ([Open "capture.har"; Print "Total entries: 3";
    Print separator; Print "URL: https://x.com/api/auth/login"; Print "Method: POST";
    Print "Status: 200 Found"; Print "Headers:"; Print "  Host: x.com";
    Print "  Accept: */*"; Print "Query Params:"; Print "  code: abc";
    Print "  state: xyz"; Print "Response Body: {}";
    Print "Error parsing HAR: 'response'"], Ok tt).
Proof.
  apply (proj1 (proj2 (proj2 (proj2 fields_read_before_filter)))
               (machine broken_har) "capture.har"
               [login_entry] no_response_entry [callback_entry] "response" []).
  - reflexivity.
  - repeat constructor.
  - right. split; [reflexivity|]. split.
    + eexists. split; reflexivity.
    + eexists. reflexivity.
Defined.

(** ** Blocks cut short *)

Lemma print_pair_incomplete (bad : json) (key : string) :
  (key = "name" /\ lacks "name" bad) \/
  (key = "value" /\ lacks "value" bad /\ exists n, subscript bad "name" = Ok n) ->
  print_pair bad [] = ([], Raise (KeyError key)).
Proof.
  unfold print_pair, bind, lift.
  intros [[-> H]|[-> [H [n Hn]]]].
  - now rewrite (subscript_lacks _ _ H).
  - now rewrite Hn, (subscript_lacks _ _ H).
Qed.

Lemma process_entry_no_content
      (entry request response headers : json) (u m : string) (s : Z) (st : string)
      (nvs : list (string * string)) (q t : trace) :
  subscript entry "request" = Ok request ->
  subscript entry "response" = Ok response ->
  subscript request "url" = Ok (JStr u) ->
  relevant_url u ->
  subscript request "method" = Ok (JStr m) ->
  subscript response "status" = Ok (JInt s) ->
  subscript response "statusText" = Ok (JStr st) ->
  subscript request "headers" = Ok headers ->
  as_pairs headers = Some nvs ->
  print_query_params request [] = (q, Ok tt) ->
  lacks "content" response ->
  process_entry entry t =
  ((t ++ map Print (block_head u m s st nvs) ++ q)%list, Raise (KeyError "content")).
Proof.
  intros Hreq Hresp Hurl Hrel Hm Hs Hst Hh Hp Hq Hc.
  rewrite (process_entry_filtered _ _ _ _ t Hreq Hresp Hurl).
  apply relevant_url_iff in Hrel. rewrite Hrel.
  rewrite (print_block_head _ _ _ _ _ _ _ _ _ Hm Hs Hst Hh Hp).
  unfold bind. rewrite (framed_print_query_params request _).
  unfold emitted, outcome, run. rewrite Hq. simpl.
  unfold print_response_content, bind, lift.
  rewrite (subscript_lacks _ _ Hc). now rewrite <- app_assoc.
Qed.

Lemma process_entry_bad_header
      (entry request response bad : json) (good rest : list json)
      (u m : string) (s : Z) (st key : string)
      (nvs : list (string * string)) (t : trace) :
  subscript entry "request" = Ok request ->
  subscript entry "response" = Ok response ->
  subscript request "url" = Ok (JStr u) ->
  relevant_url u ->
  subscript request "method" = Ok (JStr m) ->
  subscript response "status" = Ok (JInt s) ->
  subscript response "statusText" = Ok (JStr st) ->
  subscript request "headers" = Ok (JArr (good ++ bad :: rest)) ->
  as_pair_list good = Some nvs ->
  print_pair bad [] = ([], Raise (KeyError key)) ->
  process_entry entry t =
  ((t ++ map Print (block_head u m s st nvs))%list, Raise (KeyError key)).
Proof.
  intros Hreq Hresp Hurl Hrel Hm Hs Hst Hh Hp Hbad.
  rewrite (process_entry_filtered _ _ _ _ t Hreq Hresp Hurl).
  apply relevant_url_iff in Hrel. rewrite Hrel.
  unfold print_block. unfold bind at 1 2 3 4 5 6 7 8. unfold lift, print.
  rewrite Hm, Hs, Hst.
  unfold print_headers, bind, lift, print. rewrite Hh. simpl iter. cbv iota.
  rewrite (print_pairs_first_failure _ _ _ _ _ _ Hp Hbad).
  unfold block_head. simpl str. rewrite map_app. simpl map at 2.
  now rewrite <- !app_assoc.
Qed.

(** C10: a block is not printed atomically.  When a matching entry has a
    response without [content], or a header without [name] or [value],
    the lines printed up to that point (separator, URL, Method, Status,
    Headers and the header lines already done, then the query lines in the
    first case) stay in the output, and the error line follows them. *)
Theorem rendering_is_not_atomic
        (rt : runtime) (file_path : string) (pre post : list json)
        (entry request response : json) (u m : string) (s : Z) (st : string) (t : trace) :
  loaded_entries rt file_path = Ok (JArr (pre ++ entry :: post)) ->
  Forall entry_ok pre ->
  subscript entry "request" = Ok request ->
  subscript entry "response" = Ok response ->
  subscript request "url" = Ok (JStr u) ->
  relevant_url u ->
  subscript request "method" = Ok (JStr m) ->
  subscript response "status" = Ok (JInt s) ->
  subscript response "statusText" = Ok (JStr st) ->
  (forall headers nvs q,
      subscript request "headers" = Ok headers ->
      as_pairs headers = Some nvs ->
      print_query_params request [] = (q, Ok tt) ->
      lacks "content" response ->
      parse_har rt file_path t =
      ((t ++ [Open file_path;
              Print ("Total entries: " ++ str_of_nat (List.length (pre ++ entry :: post)))]
          ++ concat (map (fun x => emitted (process_entry x)) pre)
          ++ map Print ([separator; ("URL: " ++ u)%string; ("Method: " ++ m)%string;
                         ("Status: " ++ str_of_Z s ++ " " ++ st)%string; "Headers:"]
                        ++ map (fun nv => ("  " ++ fst nv ++ ": " ++ snd nv)%string) nvs)
          ++ q
          ++ [Print "Error parsing HAR: 'content'"])%list, Ok tt)) /\
  (forall good bad rest nvs key,
      subscript request "headers" = Ok (JArr (good ++ bad :: rest)) ->
      as_pair_list good = Some nvs ->
      (key = "name" /\ lacks "name" bad) \/
      (key = "value" /\ lacks "value" bad /\ exists n, subscript bad "name" = Ok n) ->
      parse_har rt file_path t =
      ((t ++ [Open file_path;
              Print ("Total entries: " ++ str_of_nat (List.length (pre ++ entry :: post)))]
          ++ concat (map (fun x => emitted (process_entry x)) pre)
          ++ map Print ([separator; ("URL: " ++ u)%string; ("Method: " ++ m)%string;
                         ("Status: " ++ str_of_Z s ++ " " ++ st)%string; "Headers:"]
                        ++ map (fun nv => ("  " ++ fst nv ++ ": " ++ snd nv)%string) nvs)
          ++ [Print ("Error parsing HAR: '" ++ key ++ "'")])%list, Ok tt)).
Proof.
  intros Hl Hpre Hreq Hresp Hurl Hrel Hm Hs Hst. split.
  - intros headers nvs q Hh Hp Hq Hc.
    pose proof (process_entry_no_content _ _ _ _ _ _ _ _ _ _ []
                  Hreq Hresp Hurl Hrel Hm Hs Hst Hh Hp Hq Hc) as Hrun.
    rewrite (parse_har_first_failure rt file_path pre entry post (KeyError "content") t
               Hl Hpre).
    + change (emitted (process_entry entry)) with (fst (process_entry entry [])).
      rewrite Hrun. cbn [fst]. rewrite app_nil_l.
      rewrite <- (app_assoc (map Print _) q). reflexivity.
    + unfold outcome, run. now rewrite Hrun.
  - intros good bad rest nvs key Hh Hp Hbad.
    pose proof (process_entry_bad_header _ _ _ _ _ _ _ _ _ _ _ _ []
                  Hreq Hresp Hurl Hrel Hm Hs Hst Hh Hp
                  (print_pair_incomplete _ _ Hbad)) as Hrun.
    rewrite (parse_har_first_failure rt file_path pre entry post (KeyError key) t
               Hl Hpre).
    + change (emitted (process_entry entry)) with (fst (process_entry entry [])).
      rewrite Hrun. cbn [fst]. rewrite app_nil_l.
      destruct Hbad as [[-> _]|[-> _]]; reflexivity.
    + unfold outcome, run. now rewrite Hrun.
Qed.

Lemma rendering_is_not_atomic_witness :
  parse_har (machine truncated_har) "capture.har" [] =
  ([Open "capture.har"; Print "Total entries: 2";
    Print separator; Print "URL: https://x.com/api/oauth/token"; Print "Method: POST";
    Print "Status: 200 Found"; Print "Headers:"; Print "  Host: x.com";
    Print "  Accept: */*"; Print "Query Params:"; Print "  code: abc";
    Print "  state: xyz";
    Print "Error parsing HAR: 'content'"], Ok tt) /\
  parse_har (machine nameless_header_har) "capture.har" [] =
  ([Open "capture.har"; Print "Total entries: 2";
    Print separator; Print "URL: https://x.com/callback"; Print "Method: GET";
    Print "Status: 200 Found"; Print "Headers:"; Print "  Host: x.com";
    Print "Error parsing HAR: 'name'"], Ok tt).
Proof.
  split.
  - apply (proj1 (rendering_is_not_atomic
                    (machine truncated_har) "capture.har" [] [callback_entry]
                    no_content_entry
                    (sample_request "https://x.com/api/oauth/token" sample_query)
                    (sample_response 200 [])
                    "https://x.com/api/oauth/token" "POST" 200 "Found" []
                    eq_refl (Forall_nil _) eq_refl eq_refl eq_refl
                    (proj1 (relevant_url_iff "https://x.com/api/oauth/token") eq_refl)
                    eq_refl eq_refl eq_refl)
                 (JArr [pair "Host" "x.com"; pair "Accept" "*/*"])
                 [("Host", "x.com"); ("Accept", "*/*")]
                 [Print "Query Params:"; Print "  code: abc"; Print "  state: xyz"]).
    + reflexivity.
    + reflexivity.
    + reflexivity.
    + eexists. split; reflexivity.
  - apply (proj2 (rendering_is_not_atomic
                    (machine nameless_header_har) "capture.har" [] [callback_entry]
                    _ _ (sample_response 200 [("content", JObj [])])
                    "https://x.com/callback" "GET" 200 "Found" []
                    eq_refl (Forall_nil _) eq_refl eq_refl eq_refl
                    (proj1 (relevant_url_iff "https://x.com/callback") eq_refl)
                    eq_refl eq_refl eq_refl)
                 [pair "Host" "x.com"] (JObj [("value", JStr "gzip")])
                 [pair "Accept" "*/*"] [("Host", "x.com")] "name").
    + reflexivity.
    + reflexivity.
    + left. split; [reflexivity|]. eexists. split; reflexivity.
Defined.

(** ** The command line *)

(** C7: with no file path on the command line the whole run is the one
    usage line, and no file is opened; with a path, [parse_har] runs on the
    first one and whatever follows it on the command line plays no part. *)
Theorem usage_or_first_argument (rt : runtime) (script : string) :
  run (main rt [script]) = ([Print "Usage: python3 parse_har.py <file_path>"], Ok tt) /\
  opened (fst (run (main rt [script]))) = [] /\
  stdout (fst (run (main rt [script]))) =
    ("Usage: python3 parse_har.py <file_path>" ++ newline)%string /\
  (forall file_path extra t,
      main rt (script :: file_path :: extra) t = parse_har rt file_path t).
Proof.
  repeat split.
Qed.

(** ** Determinism *)

Lemma parse_har_same_file (rt1 rt2 : runtime) (p : string) (t : trace) :
  (forall text, json_loads rt1 text = json_loads rt2 text) ->
  read_text rt1 p = read_text rt2 p ->
  parse_har rt1 p t = parse_har rt2 p t.
Proof.
  intros Hj Hr. unfold parse_har, try_except, parse_har_body, bind at 1 3, load.
  rewrite Hr. destruct (read_text rt2 p) as [text|e]; [|reflexivity].
  now rewrite Hj.
Qed.

(** C8: the run is a function of the command line and of the content of
    the file it names.  Two machines that hold the same content under the
    path given first (and run the same JSON parser) produce the same trace,
    hence the same bytes on standard output, whatever else differs. *)
Theorem output_determined_by_file_content (rt1 rt2 : runtime) (argv : list string) :
  (forall text, json_loads rt1 text = json_loads rt2 text) ->
  (forall file_path, nth_error argv 1 = Some file_path ->
                     read_text rt1 file_path = read_text rt2 file_path) ->
  run (main rt1 argv) = run (main rt2 argv) /\
  stdout (fst (run (main rt1 argv))) = stdout (fst (run (main rt2 argv))).
Proof.
  intros Hj Hr.
  assert (H : run (main rt1 argv) = run (main rt2 argv)).
  { unfold run, main. destruct (List.length argv <? 2)%nat; [reflexivity|].
    unfold bind, lift, argv_get.
    destruct (nth_error argv 1) as [p|] eqn:E; [|reflexivity].
    apply parse_har_same_file; auto. }
  split; [exact H | now rewrite H].
Qed.

Lemma output_determined_by_file_content_witness :
  run (main (machine sample_har) ["parse_har.py"; "capture.har"]) =
  run (main (busy_machine sample_har) ["parse_har.py"; "capture.har"]) /\
  stdout (fst (run (main (machine sample_har) ["parse_har.py"; "capture.har"]))) =
  stdout (fst (run (main (busy_machine sample_har) ["parse_har.py"; "capture.har"]))).
Proof.
  apply (output_determined_by_file_content (machine sample_har) (busy_machine sample_har)
           ["parse_har.py"; "capture.har"]).
  - intros text. reflexivity.
  - intros file_path H. inversion H. reflexivity.
Defined.

(** * Further properties of the script *)

(** ** The statement groups *)

Lemma parse_har_body_is (rt : runtime) (p : string) :
  parse_har_body rt p = (har_data <- load rt p ;; report har_data).
Proof. reflexivity. Qed.

Lemma print_block_is (request response url : json) :
  print_block request response url =
  (print separator ;; block_rest request response url).
Proof. reflexivity. Qed.

Lemma parse_har_body_entries (rt : runtime) (p : string) (v : json) (t : trace) :
  loaded_entries rt p = Ok v ->
  parse_har_body rt p t = entries_loop v (t ++ [Open p])%list.
Proof.
  unfold loaded_entries, parse_har_body, entries_loop. unfold bind at 1 2 3.
  unfold load, lift. intros H.
  destruct (read_text rt p) as [text|]; [|discriminate].
  destruct (json_loads rt text) as [doc|]; [|discriminate].
  destruct (subscript doc "log") as [log|]; [|discriminate].
  now rewrite H.
Qed.

Lemma printed_app (t1 t2 : trace) :
  printed (t1 ++ t2)%list = (printed t1 ++ printed t2)%list.
Proof.
  induction t1 as [|[p|l] t1 IH]; simpl; [reflexivity | exact IH | now rewrite IH].
Qed.

Lemma opened_app (t1 t2 : trace) :
  opened (t1 ++ t2)%list = (opened t1 ++ opened t2)%list.
Proof.
  induction t1 as [|[p|l] t1 IH]; simpl; [reflexivity | now rewrite IH | exact IH].
Qed.

(** ** Invariants of the events a statement adds *)

Lemma emitted_bind {A B : Type} (m : M A) (f : A -> M B) :
  framed m -> (forall a, framed (f a)) ->
  emitted (bind m f) =
  match outcome m with
  | Ok a => (emitted m ++ emitted (f a))%list
  | Raise _ => emitted m
  end.
Proof.
  intros Hm Hf. unfold emitted at 1, run, bind. rewrite (Hm []).
  destruct (outcome m) as [a|e]; [|reflexivity].
  now rewrite (Hf a).
Qed.

Lemma keeps_framed {A : Type} (P : event -> Prop) (m : M A) : keeps P m -> framed m.
Proof. now intros [H _]. Qed.

Lemma keeps_ret {A : Type} (P : event -> Prop) (a : A) : keeps P (ret a).
Proof. split; [apply framed_ret | constructor]. Qed.

Lemma keeps_lift {A : Type} (P : event -> Prop) (r : result A) : keeps P (lift r).
Proof. split; [apply framed_lift | constructor]. Qed.

Lemma keeps_print (P : event -> Prop) (s : string) : P (Print s) -> keeps P (print s).
Proof. intros H. split; [apply framed_print | now repeat constructor]. Qed.

Lemma keeps_bind {A B : Type} (P : event -> Prop) (m : M A) (f : A -> M B) :
  keeps P m -> (forall a, keeps P (f a)) -> keeps P (bind m f).
Proof.
  intros [Hm Pm] Hf. split.
  - apply framed_bind; [exact Hm | intros a; apply (Hf a)].
  - rewrite emitted_bind; [|exact Hm | intros a; apply (Hf a)].
    destruct (outcome m) as [a|e]; [|exact Pm].
    apply Forall_app. split; [exact Pm | apply (Hf a)].
Qed.

Lemma keeps_if {A : Type} (P : event -> Prop) (b : bool) (m1 m2 : M A) :
  keeps P m1 -> keeps P m2 -> keeps P (if b then m1 else m2).
Proof. now destruct b. Qed.

Lemma keeps_for_each {A : Type} (P : event -> Prop) (body : A -> M unit) (xs : list A) :
  (forall x, keeps P (body x)) -> keeps P (for_each body xs).
Proof.
  intros Hb. induction xs as [|x xs IH]; simpl.
  - apply keeps_ret.
  - apply keeps_bind; auto.
Qed.

Lemma keeps_try_except (P : event -> Prop) (body : M unit) (handler : exn -> M unit) :
  keeps P body -> (forall e, keeps P (handler e)) -> keeps P (try_except body handler).
Proof.
  intros [Hb Pb] Hh. split.
  - apply framed_try_except; [exact Hb | intros e; apply (Hh e)].
  - unfold emitted at 1, run, try_except. rewrite (Hb []).
    destruct (outcome body) as [a|e]; [exact Pb|].
    rewrite (proj1 (Hh e)). simpl. apply Forall_app. split; [exact Pb | apply (Hh e)].
Qed.

Lemma keeps_weaken {A : Type} (P Q : event -> Prop) (m : M A) :
  (forall ev, P ev -> Q ev) -> keeps P m -> keeps Q m.
Proof.
  intros H [Hm Pm]. split; [exact Hm|]. eapply Forall_impl; eauto.
Qed.

Ltac keeps_steps :=
  unfold or_else;
  repeat first [ apply keeps_bind; [ | intros ? ]
               | apply keeps_if
               | apply keeps_ret
               | apply keeps_lift
               | apply keeps_print; reflexivity
               | apply keeps_for_each; intros ?
               | assumption ].

(** Everything a block prints after its separator begins with a letter or
    a blank, never with a dash. *)
Lemma plain_print_pair (v : json) : keeps plain (print_pair v).
Proof. unfold print_pair. keeps_steps. Qed.

Lemma plain_print_headers (request : json) : keeps plain (print_headers request).
Proof. unfold print_headers. keeps_steps. Qed.

Lemma plain_print_query_params (request : json) :
  keeps plain (print_query_params request).
Proof. unfold print_query_params. keeps_steps. Qed.

Lemma plain_is_json_content (content : json) : keeps plain (is_json_content content).
Proof. unfold is_json_content. keeps_steps. Qed.

Lemma plain_print_response_content (response : json) :
  keeps plain (print_response_content response).
Proof.
  unfold print_response_content. keeps_steps.
Qed.

Lemma plain_block_rest (request response url : json) :
  keeps plain (block_rest request response url).
Proof.
  pose proof (plain_print_headers request) as H1.
  pose proof (plain_print_query_params request) as H2.
  pose proof (plain_print_response_content response) as H3.
  unfold block_rest. keeps_steps.
Qed.

Lemma is_relevant_silent (url : json) (t : trace) : fst (is_relevant url t) = t.
Proof.
  unfold is_relevant, or_else, bind, lift, ret.
  destruct (contains "api/auth" url) as [[|]|]; try reflexivity.
  destruct (contains "api/oauth" url) as [[|]|]; reflexivity.
Qed.

(** An entry prints nothing, or one separator followed by plain lines. *)
Lemma process_entry_shape (entry : json) :
  emitted (process_entry entry) = [] \/
  exists rest, emitted (process_entry entry) = Print separator :: rest /\
               Forall plain rest.
Proof.
  unfold emitted, run, process_entry, bind, lift.
  destruct (subscript entry "request") as [request|]; [|now left].
  destruct (subscript entry "response") as [response|]; [|now left].
  destruct (subscript request "url") as [url|]; [|now left].
  pose proof (is_relevant_silent url []) as Hs.
  destruct (is_relevant url []) as [t' [[|]|e]]; simpl in Hs; subst t'; try now left.
  right. rewrite print_block_is.
  destruct (plain_block_rest request response url) as [Hf Hp].
  rewrite (print_then _ _ [] Hf). simpl. eexists. split; [reflexivity | exact Hp].
Qed.

(** ** Documents of the wrong shape *)

Lemma parse_har_load_error (rt : runtime) (p : string) (e : exn) (t : trace) :
  loaded_entries rt p = Raise e ->
  parse_har rt p t = ((t ++ [Open p; Print (error_line e)])%list, Ok tt).
Proof.
  intros H.
  rewrite (parse_har_handles _ _ _ _ _ (parse_har_body_not_loaded _ _ _ t H)).
  now rewrite <- app_assoc.
Qed.

(** X1: a document that parses but has no [log], or whose [log] has no
    [entries], produces the error line naming the missing key and nothing
    else: no total line is printed. *)
Theorem missing_log_or_entries
        (rt : runtime) (file_path text : string) (doc : json) (t : trace) :
  read_text rt file_path = Ok text ->
  json_loads rt text = Ok doc ->
  (lacks "log" doc ->
   parse_har rt file_path t =
   ((t ++ [Open file_path; Print "Error parsing HAR: 'log'"])%list, Ok tt)) /\
  (forall log,
      subscript doc "log" = Ok log ->
      lacks "entries" log ->
      parse_har rt file_path t =
      ((t ++ [Open file_path; Print "Error parsing HAR: 'entries'"])%list, Ok tt)).
Proof.
  intros Hr Hj. split.
  - intros H. apply (parse_har_load_error rt file_path (KeyError "log")).
    unfold loaded_entries. now rewrite Hr, Hj, (subscript_lacks _ _ H).
  - intros log Hl H. apply (parse_har_load_error rt file_path (KeyError "entries")).
    unfold loaded_entries. now rewrite Hr, Hj, Hl, (subscript_lacks _ _ H).
Qed.

Lemma missing_log_or_entries_witness :
  parse_har (machine no_log_doc) "capture.har" [] =
  ([Open "capture.har"; Print "Error parsing HAR: 'log'"], Ok tt) /\
  parse_har (machine (JObj [("log", JObj [("version", JStr "1.2")])])) "capture.har" [] =
  ([Open "capture.har"; Print "Error parsing HAR: 'entries'"], Ok tt).
Proof.
  split.
  - apply (proj1 (missing_log_or_entries (machine no_log_doc) "capture.har"
                    "(the text of the capture)" no_log_doc [] eq_refl eq_refl)).
    eexists. split; reflexivity.
  - apply (proj2 (missing_log_or_entries
                    (machine (JObj [("log", JObj [("version", JStr "1.2")])]))
                    "capture.har" "(the text of the capture)"
                    (JObj [("log", JObj [("version", JStr "1.2")])]) [] eq_refl eq_refl)
                 (JObj [("version", JStr "1.2")]) eq_refl).
    eexists. split; reflexivity.
Defined.

(** X2: when [log.entries] is [null], a boolean or a number, [len] fails
    before the total line is printed, so the error line is the only
    output. *)
Theorem entries_without_length
        (rt : runtime) (file_path : string) (v : json) (t : trace) :
  loaded_entries rt file_path = Ok v ->
  v = JNull \/ (exists b, v = JBool b) \/ (exists z, v = JInt z) ->
  parse_har rt file_path t =
  ((t ++ [Open file_path;
          Print ("Error parsing HAR: object of type '" ++ type_name v
                 ++ "' has no len()")])%list, Ok tt).
Proof.
  intros Hl Hv.
  assert (Hrun : entries_loop v (t ++ [Open file_path])%list =
                 ((t ++ [Open file_path])%list,
                  Raise (TypeError ("object of type '" ++ type_name v ++ "' has no len()")))).
  { destruct Hv as [->|[[b ->]|[z ->]]]; reflexivity. }
  rewrite <- (parse_har_body_entries _ _ _ _ Hl) in Hrun.
  rewrite (parse_har_handles _ _ _ _ _ Hrun). now rewrite <- app_assoc.
Qed.

Lemma entries_without_length_witness :
  parse_har (machine null_entries_har) "capture.har" [] =
  ([Open "capture.har";
    Print "Error parsing HAR: object of type 'NoneType' has no len()"], Ok tt).
Proof.
  apply (entries_without_length (machine null_entries_har) "capture.har" JNull []).
  - reflexivity.
  - left. reflexivity.
Defined.

Lemma entries_loop_text_item (s : string) (rest : list json) (t : trace) :
  for_each process_entry (JStr s :: rest) t =
  (t, Raise (TypeError "string indices must be integers, not 'str'")).
Proof. reflexivity. Qed.

(** X3: when [log.entries] is an object or a string, the total line
    counts its keys or characters; the loop then visits strings, so unless
    the value is empty the first item raises and the run ends with the
    error line, without any block. *)
Theorem entries_object_or_text
        (rt : runtime) (file_path : string) (v : json) (t : trace) :
  loaded_entries rt file_path = Ok v ->
  (v = JObj [] \/ v = JStr "" ->
   parse_har rt file_path t =
   ((t ++ [Open file_path; Print "Total entries: 0"])%list, Ok tt)) /\
  (forall k x m,
      v = JObj ((k, x) :: m) ->
      exists msg,
        parse_har rt file_path t =
        ((t ++ [Open file_path;
                Print ("Total entries: " ++ str_of_nat (S (List.length m)));
                Print ("Error parsing HAR: " ++ msg)])%list, Ok tt)) /\
  (forall c s,
      v = JStr (String c s) ->
      exists msg,
        parse_har rt file_path t =
        ((t ++ [Open file_path;
                Print ("Total entries: " ++ str_of_nat (S (String.length s)));
                Print ("Error parsing HAR: " ++ msg)])%list, Ok tt)).
Proof.
  intros Hl. split; [|split].
  - intros Hv.
    assert (Hrun : entries_loop v (t ++ [Open file_path])%list =
                   (((t ++ [Open file_path]) ++ [Print "Total entries: 0"])%list, Ok tt)).
    { destruct Hv as [->| ->]; reflexivity. }
    rewrite <- (parse_har_body_entries _ _ _ _ Hl) in Hrun.
    rewrite (parse_har_passes _ _ _ _ _ Hrun). now rewrite <- app_assoc.
  - intros k x m ->. eexists.
    erewrite parse_har_handles.
    2:{ rewrite (parse_har_body_entries _ _ _ _ Hl).
        unfold entries_loop, bind, lift, print. simpl len. simpl iter. cbv iota.
        apply entries_loop_text_item. }
    rewrite <- !app_assoc. reflexivity.
  - intros c s ->. eexists.
    erewrite parse_har_handles.
    2:{ rewrite (parse_har_body_entries _ _ _ _ Hl).
        unfold entries_loop, bind, lift, print. simpl len. simpl iter. cbv iota.
        apply entries_loop_text_item. }
    rewrite <- !app_assoc. reflexivity.
Qed.

Lemma entries_object_or_text_witness :
  exists msg,
    parse_har (machine keyed_har) "capture.har" [] =
    ([Open "capture.har"; Print "Total entries: 2";
      Print ("Error parsing HAR: " ++ msg)], Ok tt).
Proof.
  apply (proj1 (proj2 (entries_object_or_text (machine keyed_har) "capture.har"
                         (JObj [("first", login_entry); ("second", static_entry)]) []
                         eq_refl))
               "first" login_entry [("second", static_entry)] eq_refl).
Defined.

(** ** What every run prints *)

Lemma entries_loop_counted (v : json) (n : nat) (t : trace) :
  len v = Ok n ->
  exists rest r,
    entries_loop v t = ((t ++ Print ("Total entries: " ++ str_of_nat n) :: rest)%list, r).
Proof.
  intros Hn. unfold entries_loop. unfold bind at 1. unfold lift at 1. rewrite Hn.
  rewrite print_then by framed_steps. eexists. eexists. reflexivity.
Qed.

(** X4: no run of [parse_har] is silent, and the first line tells how it
    went: either it is the total line, or the error line is the whole
    output. *)
Theorem first_line_total_or_error (rt : runtime) (file_path : string) :
  (exists n rest,
      printed (fst (run (parse_har rt file_path))) =
      ("Total entries: " ++ str_of_nat n)%string :: rest) \/
  (exists e,
      printed (fst (run (parse_har rt file_path))) =
      ["Error parsing HAR: " ++ exn_str e]).
Proof.
  unfold run. destruct (loaded_entries rt file_path) as [v|e] eqn:Hl.
  - destruct (len v) as [n|e] eqn:Hn.
    + left. exists n.
      destruct (entries_loop_counted v n [Open file_path] Hn) as [rest [r Hrun]].
      pose proof (parse_har_body_entries rt file_path v [] Hl) as Hb.
      simpl in Hb. rewrite <- Hb in Hrun.
      unfold parse_har, try_except, print. rewrite Hrun.
      destruct r as [u|e]; simpl; rewrite ?printed_app; eexists; reflexivity.
    + right. exists e.
      assert (Hrun : parse_har_body rt file_path [] = ([Open file_path], Raise e)).
      { rewrite (parse_har_body_entries _ _ _ _ Hl).
        unfold entries_loop, bind, lift. now rewrite Hn. }
      now rewrite (parse_har_handles _ _ _ _ _ Hrun).
  - right. exists e. now rewrite (parse_har_load_error _ _ _ [] Hl).
Qed.




(** ** Dashes and separators *)

Lemma plain_dash_is_separator (ev : event) : plain ev -> dash_is_separator ev.
Proof. destruct ev as [p|l]; simpl; [auto | congruence]. Qed.

Lemma dash_is_separator_print (ev : event) : dash_is_separator ev -> is_print ev.
Proof. now destruct ev. Qed.

Lemma keeps_process_entry (entry : json) : keeps dash_is_separator (process_entry entry).
Proof.
  split; [apply framed_process_entry|].
  destruct (process_entry_shape entry) as [->|[rest [-> Hrest]]]; constructor.
  - intros _. reflexivity.
  - eapply Forall_impl; [exact plain_dash_is_separator | exact Hrest].
Qed.

Lemma dash_total_line (n : nat) :
  dash_is_separator (Print ("Total entries: " ++ str_of_nat n)).
Proof. intros H. discriminate H. Qed.

Lemma dash_error_line (e : exn) :
  dash_is_separator (Print ("Error parsing HAR: " ++ exn_str e)).
Proof. intros H. discriminate H. Qed.

Lemma keeps_entries_loop (v : json) : keeps dash_is_separator (entries_loop v).
Proof.
  unfold entries_loop.
  apply keeps_bind; [apply keeps_lift | intros n].
  apply keeps_bind; [apply keeps_print, dash_total_line | intros _].
  apply keeps_bind; [apply keeps_lift | intros items].
  apply keeps_for_each, keeps_process_entry.
Qed.

Lemma keeps_report (doc : json) : keeps dash_is_separator (report doc).
Proof.
  unfold report.
  apply keeps_bind; [apply keeps_lift | intros log].
  apply keeps_bind; [apply keeps_lift | intros entries].
  apply keeps_entries_loop.
Qed.

Lemma prints_are_lines (t : trace) :
  Forall is_print t -> exists lines, t = map Print lines.
Proof.
  induction 1 as [|[p|l] t Hev Ht [lines ->]].
  - now exists [].
  - destruct Hev.
  - now exists (l :: lines).
Qed.

(** After the file is opened, a run only prints, and what it prints obeys
    the dash rule. *)
Lemma parse_har_trace (rt : runtime) (p : string) :
  exists rest,
    fst (run (parse_har rt p)) = Open p :: rest /\ Forall dash_is_separator rest.
Proof.
  unfold run, parse_har, try_except. rewrite parse_har_body_is.
  unfold bind, load. simpl.
  assert (Hload : forall r : result json,
             exists rest,
               fst (match (match r with
                           | Ok a => report a [Open p]
                           | Raise e => ([Open p], Raise e)
                           end) with
                    | (t', Ok _) => (t', Ok tt)
                    | (t', Raise e) => print ("Error parsing HAR: " ++ exn_str e) t'
                    end) = Open p :: rest /\ Forall dash_is_separator rest).
  { intros [doc|e].
    - destruct (keeps_report doc) as [Hf Hp]. rewrite (Hf [Open p]).
      destruct (outcome (report doc)) as [u|e]; simpl.
      + eexists. split; [reflexivity | exact Hp].
      + eexists. split; [reflexivity|].
        apply Forall_app. split; [exact Hp|]. constructor; [|constructor].
        apply dash_error_line.
    - simpl. eexists. split; [reflexivity|]. constructor; [|constructor].
      apply dash_error_line. }
  apply Hload.
Qed.

(** X6: a run of [parse_har] opens the file it was given, once, before
    anything is printed, and opens nothing else; a run of the program opens
    the second item of [sys.argv] or nothing. *)
Theorem opens_only_the_named_file (rt : runtime) :
  (forall file_path,
      exists lines, fst (run (parse_har rt file_path)) = Open file_path :: map Print lines) /\
  (forall argv,
      exists lines,
        fst (run (main rt argv)) =
        (match nth_error argv 1 with
         | Some file_path => [Open file_path]
         | None => []
         end ++ map Print lines)%list).
Proof.
  assert (H : forall p, exists lines,
               fst (run (parse_har rt p)) = Open p :: map Print lines).
  { intros p. destruct (parse_har_trace rt p) as [rest [-> Hrest]].
    destruct (prints_are_lines rest) as [lines ->]; [|now exists lines].
    eapply Forall_impl; [exact dash_is_separator_print | exact Hrest]. }
  split; [exact H|].
  intros argv. unfold run, main.
  destruct argv as [|a [|p argv]]; simpl.
  - now exists [usage].
  - now exists [usage].
  - unfold bind, lift. simpl. destruct (H p) as [lines Hl]. exists lines. exact Hl.
Qed.

(** X7: every text passed to [print] that begins with a dash is the
    80-dash separator; URLs, header values and bodies are always printed
    behind a label. *)
Theorem dash_means_separator (rt : runtime) (file_path line : string) :
  In (Print line) (fst (run (parse_har rt file_path))) ->
  starts_with_dash line = true ->
  line = separator.
Proof.
  destruct (parse_har_trace rt file_path) as [rest [-> Hrest]].
  intros [H|H] Hd; [discriminate H|].
  rewrite Forall_forall in Hrest. exact (Hrest _ H Hd).
Qed.

Lemma dash_means_separator_witness :
  In (Print separator) (fst (run (parse_har (machine sample_har) "capture.har"))) /\
  starts_with_dash separator = true /\
  separator = separator.
Proof.
  assert (H : In (Print separator)
                 (fst (run (parse_har (machine sample_har) "capture.har")))).
  { right. right. left. reflexivity. }
  split; [exact H|]. split; [reflexivity|].
  exact (dash_means_separator (machine sample_har) "capture.har" separator H eq_refl).
Defined.

Lemma separators_app (t1 t2 : trace) :
  separators (t1 ++ t2)%list = separators t1 + separators t2.
Proof. unfold separators. now rewrite filter_app, length_app. Qed.

Lemma separators_plain (t : trace) : Forall plain t -> separators t = 0.
Proof.
  induction 1 as [|[p|l] t Hev Ht IH]; [reflexivity | destruct Hev |].
  unfold separators in *. simpl. simpl in Hev.
  destruct (String.eqb l separator) eqn:E; [|exact IH].
  apply String.eqb_eq in E. subst l. discriminate Hev.
Qed.

Lemma separators_process_entry (entry : json) :
  separators (emitted (process_entry entry)) <= 1.
Proof.
  destruct (process_entry_shape entry) as [->|[rest [-> Hrest]]].
  - unfold separators. simpl. lia.
  - change (Print separator :: rest) with ([Print separator] ++ rest)%list.
    rewrite separators_app, (separators_plain _ Hrest). unfold separators. simpl. lia.
Qed.

(** When a loop stops, it has run a prefix of its items. *)
Lemma for_each_emitted {A : Type} (body : A -> M unit) (xs : list A) :
  (forall x, framed (body x)) ->
  exists k, emitted (for_each body xs) =
            concat (map (fun x => emitted (body x)) (firstn k xs)).
Proof.
  intros Hf. induction xs as [|x xs [k IH]].
  - now exists 0.
  - simpl for_each. rewrite emitted_bind; [|apply Hf | intros _; now apply framed_for_each].
    destruct (outcome (body x)) as [u|e].
    + exists (S k). simpl. now rewrite IH.
    + exists 1. simpl. now rewrite app_nil_r.
Qed.

Lemma separators_blocks (k : nat) (es : list json) :
  separators (concat (map (fun e => emitted (process_entry e)) (firstn k es)))
  <= List.length es.
Proof.
  revert k. induction es as [|e es IH]; intros k.
  - rewrite firstn_nil. unfold separators. simpl. lia.
  - destruct k as [|k]; [unfold separators; simpl; lia|].
    simpl. rewrite separators_app.
    pose proof (separators_process_entry e). specialize (IH k). lia.
Qed.

(** X8: the separator is printed at most once per entry of the capture:
    the number of blocks in a report never exceeds the number announced
    in its total line. *)
Theorem separators_at_most_entries
        (rt : runtime) (file_path : string) (es : list json) :
  loaded_entries rt file_path = Ok (JArr es) ->
  separators (fst (run (parse_har rt file_path))) <= List.length es.
Proof.
  intros Hl. unfold run, parse_har, try_except.
  rewrite (parse_har_body_loaded _ _ _ _ Hl).
  rewrite (framed_for_each process_entry es framed_process_entry _).
  destruct (for_each_emitted process_entry es framed_process_entry) as [k ->].
  pose proof (separators_blocks k es) as Hk.
  assert (H0 : separators ([] ++ [Open file_path;
                                  Print (total_line (List.length es))])%list = 0)
    by reflexivity.
  destruct (outcome (for_each process_entry es)) as [u|e]; unfold print; cbn [fst].
  - rewrite separators_app, H0. lia.
  - assert (H1 : separators [Print ("Error parsing HAR: " ++ exn_str e)] = 0)
      by reflexivity.
    rewrite separators_app, separators_app, H0, H1. lia.
Qed.

Lemma separators_at_most_entries_witness :
  separators (fst (run (parse_har (machine broken_har) "capture.har"))) <= 3.
Proof.
  apply (separators_at_most_entries (machine broken_har) "capture.har"
           [login_entry; no_response_entry; callback_entry]).
  reflexivity.
Defined.

(** ** Well-formed captures *)

Lemma str_field_subscript (k : string) (v : json) (s : string) :
  str_field k v = Some s -> subscript v k = Ok (JStr s).
Proof.
  unfold str_field. destruct (subscript v k) as [[| | |s'| |]|]; try discriminate.
  now intros [= ->].
Qed.

Lemma int_field_subscript (k : string) (v : json) (z : Z) :
  int_field k v = Some z -> subscript v k = Ok (JInt z).
Proof.
  unfold int_field. destruct (subscript v k) as [[| |z'| | |]|]; try discriminate.
  now intros [= ->].
Qed.

Lemma print_query_params_typed
      (request : json) (q : option (list (string * string))) (t : trace) :
  opt_pairs_field "queryString" request = Some q ->
  print_query_params request t = ((t ++ map Print (query_lines q))%list, Ok tt).
Proof.
  unfold opt_pairs_field, print_query_params. intros H.
  destruct request as [| | | | |m]; try discriminate.
  unfold bind, lift, ret, print. cbn [get subscript].
  destruct (assoc "queryString" m) as [x|].
  - destruct (as_pairs x) as [l|] eqn:Hx; [|discriminate]. inversion H; subst q.
    destruct x as [| | | |js|]; try discriminate. simpl in Hx.
    destruct js as [|j js].
    + inversion Hx; subst l. simpl. now rewrite app_nil_r.
    + change (truthy (JArr (j :: js))) with true.
      change (iter (JArr (j :: js))) with (Ok (j :: js)). cbv beta iota.
      rewrite (print_pairs_ok _ _ _ Hx).
      assert (Hl : exists p ps, l = p :: ps).
      { simpl in Hx. destruct (as_pair j); [|discriminate].
        destruct (as_pair_list js); [|discriminate]. inversion Hx. eauto. }
      destruct Hl as [p [ps ->]]. simpl query_lines. now rewrite <- app_assoc.
  - inversion H; subst q. simpl. now rewrite app_nil_r.
Qed.

Lemma print_response_content_run
      (response content : json) (mime text : option string) (t : trace) :
  subscript response "content" = Ok content ->
  opt_str_field "mimeType" content = Some mime ->
  opt_str_field "text" content = Some text ->
  print_response_content response t =
  if json_mimeb mime then
    if (String.length (text_or_empty text) <? 1000)%nat
    then print ("Response Body: " ++ text_or_empty text) t
    else print ("Response Body (truncated): "
                ++ substring 0 200 (text_or_empty text) ++ "...") t
  else
    (status <- lift (subscript response "status") ;;
     is_error <- lift (ge_int status 400) ;;
     if is_error then
       print ("Error Response Body: " ++ substring 0 500 (text_or_empty text))
     else ret tt) t.
Proof.
  intros Hc Hm Ht.
  unfold print_response_content. unfold bind at 1 2. unfold lift at 1.
  rewrite Hc, (is_json_content_typed _ _ _ Hm).
  destruct (json_mimeb mime).
  - unfold bind, lift. rewrite (get_text_typed _ _ Ht). simpl.
    now destruct (String.length (text_or_empty text) <? 1000)%nat.
  - unfold bind, lift. destruct (subscript response "status") as [st|]; [|reflexivity].
    destruct (ge_int st 400) as [[|]|]; try reflexivity.
    now rewrite (get_text_typed _ _ Ht).
Qed.

Lemma print_response_content_typed
      (response content : json) (mime text : option string) (status : Z) (t : trace) :
  subscript response "content" = Ok content ->
  opt_str_field "mimeType" content = Some mime ->
  opt_str_field "text" content = Some text ->
  subscript response "status" = Ok (JInt status) ->
  print_response_content response t =
  ((t ++ map Print (body_lines mime text status))%list, Ok tt).
Proof.
  intros Hc Hm Ht Hs.
  rewrite (print_response_content_run _ _ _ _ t Hc Hm Ht). unfold body_lines.
  destruct (json_mimeb mime).
  - now destruct (String.length (text_or_empty text) <? 1000)%nat.
  - unfold bind, lift. rewrite Hs. simpl ge_int. cbv iota.
    destruct (400 <=? status)%Z; [reflexivity|].
    unfold ret. simpl. now rewrite app_nil_r.
Qed.

Lemma process_entry_view (entry : json) (v : entry_view) (t : trace) :
  view_entry entry = Some v ->
  process_entry entry t = ((t ++ map Print (render v))%list, Ok tt).
Proof.
  unfold view_entry. intros H.
  destruct (subscript entry "request") as [request|] eqn:Hreq; [|discriminate].
  destruct (subscript entry "response") as [response|] eqn:Hresp; [|discriminate].
  destruct (view_request request) as [[[[u m] hs] q]|] eqn:Hvr; [|discriminate].
  destruct (view_response response) as [[[[s st] mime] text]|] eqn:Hvs; [|discriminate].
  inversion H; subst v; clear H.
  unfold view_request in Hvr.
  destruct (str_field "url" request) as [u'|] eqn:Hu; [|discriminate].
  destruct (str_field "method" request) as [m'|] eqn:Hm; [|discriminate].
  destruct (subscript request "headers") as [headers|] eqn:Hh; [|discriminate].
  destruct (as_pairs headers) as [hs'|] eqn:Hp; [|discriminate].
  destruct (opt_pairs_field "queryString" request) as [q'|] eqn:Hq; [|discriminate].
  inversion Hvr; subst u' m' hs' q'; clear Hvr.
  unfold view_response in Hvs.
  destruct (int_field "status" response) as [s'|] eqn:Hs; [|discriminate].
  destruct (str_field "statusText" response) as [st'|] eqn:Hst; [|discriminate].
  destruct (subscript response "content") as [content|] eqn:Hc; [|discriminate].
  destruct (opt_str_field "mimeType" content) as [mime'|] eqn:Hmi; [|discriminate].
  destruct (opt_str_field "text" content) as [text'|] eqn:Hte; [|discriminate].
  inversion Hvs; subst s' st' mime' text'; clear Hvs.
  apply str_field_subscript in Hu, Hm, Hst. apply int_field_subscript in Hs.
  rewrite (process_entry_filtered _ _ _ _ t Hreq Hresp Hu).
  unfold render. simpl ev_url.
  destruct (relevant_urlb u); [|simpl; now rewrite app_nil_r].
  rewrite (print_block_head _ _ _ _ _ _ _ _ _ Hm Hs Hst Hh Hp).
  unfold bind. rewrite (print_query_params_typed _ _ _ Hq).
  rewrite (print_response_content_typed _ _ _ _ _ _ Hc Hmi Hte Hs).
  simpl. now rewrite !map_app, <- !app_assoc.
Qed.

(** X9: an entry that has every field the script reads, with the type the
    HAR format gives it, never raises: it prints exactly the lines of
    [render] (nothing when the URL is not relevant) and the loop goes on. *)
Theorem well_formed_entry_renders (entry : json) (v : entry_view) (t : trace) :
  view_entry entry = Some v ->
  process_entry entry t = ((t ++ map Print (render v))%list, Ok tt) /\
  (relevant_url (ev_url v) ->
   exists rest, render v = separator :: ("URL: " ++ ev_url v)%string :: rest) /\
  (~ relevant_url (ev_url v) -> render v = []).
Proof.
  intros H. split; [exact (process_entry_view entry v t H)|].
  rewrite <- relevant_url_iff. unfold render, block_head.
  destruct (relevant_urlb (ev_url v)); split; intros Hr; try congruence.
  eexists. reflexivity.
Qed.

Lemma well_formed_entry_renders_witness :
  process_entry verbose_login_entry [] =
  ([Print separator; Print "URL: https://x.com/api/auth/login"; Print "Method: POST";
    Print "Status: 200 Found"; Print "Headers:"; Print "  Host: x.com";
    Print "  Accept: */*"; Print "Query Params:"; Print "  code: abc";
    Print "  state: xyz"; Print "Response Body: {}"], Ok tt).
Proof.
  apply (proj1 (well_formed_entry_renders verbose_login_entry
           {| ev_url := "https://x.com/api/auth/login"; ev_method := "POST";
              ev_status := 200; ev_status_text := "Found";
              ev_headers := [("Host", "x.com"); ("Accept", "*/*")];
              ev_query := Some [("code", "abc"); ("state", "xyz")];
              ev_mime := Some "application/json; charset=utf-8";
              ev_text := Some "{}" |} [] eq_refl)).
Defined.

Lemma well_formed_entries_ok (es : list json) (vs : list entry_view) :
  view_entries es = Some vs ->
  Forall entry_ok es /\ blocks es = map Print (concat (map render vs)).
Proof.
  revert vs. induction es as [|e es IH]; intros vs H; simpl in H.
  - inversion H. split; [constructor | reflexivity].
  - destruct (view_entry e) as [v|] eqn:Hv; [|discriminate].
    destruct (view_entries es) as [vs'|]; [|discriminate].
    inversion H; subst vs. destruct (IH vs' eq_refl) as [Hok Hb].
    pose proof (process_entry_view e v [] Hv) as Hrun.
    split.
    + constructor; [|exact Hok]. unfold entry_ok, outcome, run. now rewrite Hrun.
    + rewrite blocks_cons, Hb. unfold emitted, run. rewrite Hrun. simpl.
      now rewrite map_app.
Qed.

(** X10: on a capture whose entries are all well formed the report is
    complete and has no error line: the total, then the rendering of each
    entry in order. *)
Theorem well_formed_capture_reports_fully
        (rt : runtime) (file_path : string) (es : list json) (vs : list entry_view)
        (t : trace) :
  loaded_entries rt file_path = Ok (JArr es) ->
  view_entries es = Some vs ->
  parse_har rt file_path t =
  ((t ++ Open file_path
      :: Print ("Total entries: " ++ str_of_nat (List.length es))
      :: map Print (concat (map render vs)))%list, Ok tt).
Proof.
  intros Hl Hv. destruct (well_formed_entries_ok es vs Hv) as [Hok Hb].
  eapply parse_har_passes.
  rewrite (parse_har_body_loaded _ _ _ _ Hl).
  rewrite (for_each_all_ok process_entry es _ framed_process_entry Hok).
  fold (blocks es). rewrite Hb, <- app_assoc. reflexivity.
Qed.

Lemma well_formed_capture_reports_fully_witness :
  parse_har (machine sample_har) "capture.har" [] =
  ([Open "capture.har"; Print "Total entries: 3";
    Print separator; Print "URL: https://x.com/api/auth/login"; Print "Method: POST";
    Print "Status: 200 Found"; Print "Headers:"; Print "  Host: x.com";
    Print "  Accept: */*"; Print "Query Params:"; Print "  code: abc";
    Print "  state: xyz"; Print "Response Body: {}";
    Print separator; Print "URL: https://x.com/callback"; Print "Method: POST";
    Print "Status: 404 Found"; Print "Headers:"; Print "  Host: x.com";
    Print "  Accept: */*"; Print "Error Response Body: not found"], Ok tt).
Proof.
  apply (well_formed_capture_reports_fully (machine sample_har) "capture.har"
           [login_entry; static_entry; callback_entry] sample_views []);
    reflexivity.
Defined.

Lemma for_each_irrelevant (es : list json) (t : trace) :
  all_irrelevant es = true ->
  for_each process_entry es t = (t, Ok tt).
Proof.
  unfold all_irrelevant. revert t. induction es as [|e es IH]; intros t Hall; [reflexivity|].
  simpl in Hall. apply andb_true_iff in Hall. destruct Hall as [He Hes].
  destruct (entry_url e) as [u|] eqn:Hu; [|discriminate].
  destruct (entry_url_some _ _ Hu) as [rq [rs [H1 [H2 H3]]]].
  simpl. unfold bind. rewrite (process_entry_filtered _ _ _ _ t H1 H2 H3).
  apply negb_true_iff in He. rewrite He. now apply IH.
Qed.

(** X15: a capture in which no URL is relevant (an empty capture
    included) prints its total line and nothing else. *)
Theorem irrelevant_capture_prints_total_only
        (rt : runtime) (file_path : string) (es : list json) (t : trace) :
  loaded_entries rt file_path = Ok (JArr es) ->
  all_irrelevant es = true ->
  parse_har rt file_path t =
  ((t ++ [Open file_path;
          Print ("Total entries: " ++ str_of_nat (List.length es))])%list, Ok tt).
Proof.
  intros Hl Hall. eapply parse_har_passes.
  rewrite (parse_har_body_loaded _ _ _ _ Hl). now apply for_each_irrelevant.
Qed.

Lemma irrelevant_capture_prints_total_only_witness :
  parse_har (machine (har_of [static_entry; static_entry])) "capture.har" [] =
  ([Open "capture.har"; Print "Total entries: 2"], Ok tt) /\
  parse_har (machine (har_of [])) "capture.har" [] =
  ([Open "capture.har"; Print "Total entries: 0"], Ok tt).
Proof.
  split.
  - apply (irrelevant_capture_prints_total_only
             (machine (har_of [static_entry; static_entry])) "capture.har"
             [static_entry; static_entry] []); reflexivity.
  - apply (irrelevant_capture_prints_total_only
             (machine (har_of [])) "capture.har" [] []); reflexivity.
Defined.

(** ** Sizes *)

Lemma strlen_app (a b : string) :
  String.length (a ++ b) = String.length a + String.length b.
Proof. induction a as [|c a IH]; simpl; [reflexivity | now rewrite IH]. Qed.

Lemma strlen_first (k : nat) (s : string) : String.length (substring 0 k s) <= k.
Proof. destruct (first_chars k s) as [rest [_ H]]. rewrite H. lia. Qed.

(** X11: whatever the size of the response text, the body line of a block
    is bounded: with a well-typed content at most one line is printed for
    the body, and it is at most 1014 characters long (the label and a text
    of 999 characters). *)
Theorem body_line_is_bounded
        (response content : json) (mime text : option string) :
  subscript response "content" = Ok content ->
  opt_str_field "mimeType" content = Some mime ->
  opt_str_field "text" content = Some text ->
  emitted (print_response_content response) = [] \/
  exists line,
    emitted (print_response_content response) = [Print line] /\
    String.length line <= 1014.
Proof.
  intros Hc Hm Ht. unfold emitted, run.
  rewrite (print_response_content_run _ _ _ _ [] Hc Hm Ht).
  destruct (json_mimeb mime).
  - right. destruct (String.length (text_or_empty text) <? 1000)%nat eqn:E.
    + eexists. split; [reflexivity|]. apply Nat.ltb_lt in E.
      rewrite strlen_app. simpl String.length at 1. lia.
    + eexists. split; [reflexivity|].
      rewrite !strlen_app. pose proof (strlen_first 200 (text_or_empty text)).
      simpl String.length at 1 3. lia.
  - unfold bind, lift. destruct (subscript response "status") as [st|]; [|now left].
    destruct (ge_int st 400) as [[|]|]; try now left.
    right. eexists. split; [reflexivity|].
    rewrite strlen_app. pose proof (strlen_first 500 (text_or_empty text)).
    simpl String.length at 1. lia.
Qed.

Lemma body_line_is_bounded_witness :
  emitted (print_response_content
             (sample_response 200 [("content", json_content long_text)])) = [] \/
  exists line,
    emitted (print_response_content
               (sample_response 200 [("content", json_content long_text)])) = [Print line] /\
    String.length line <= 1014.
Proof.
  apply (body_line_is_bounded
           (sample_response 200 [("content", json_content long_text)])
           (json_content long_text)
           (Some "application/json; charset=utf-8") (Some long_text));
    reflexivity.
Defined.

(** ** Loose typing of the query string *)


(** ** The filter looks anywhere in the URL *)

Lemma str_app_assoc (a b c : string) : (a ++ b) ++ c = a ++ b ++ c.
Proof. induction a as [|x a IH]; simpl; [reflexivity | now rewrite IH]. Qed.

Lemma has_substring_extend (n u a b : string) :
  has_substring n u -> has_substring n (a ++ u ++ b).
Proof.
  intros [x [y ->]]. exists (a ++ x), (y ++ b).
  now rewrite !str_app_assoc.
Qed.

(** X13: the filter is a substring test, so it cannot be escaped by
    wrapping: if a URL is relevant, so is every text that contains it,
    whatever is put in front of it or behind it. *)
Theorem filter_matches_anywhere (u before after : string) (t : trace) :
  is_relevant (JStr u) t = (t, Ok true) ->
  is_relevant (JStr (before ++ u ++ after)) t = (t, Ok true).
Proof.
  rewrite !is_relevant_str. intros H.
  assert (Hu : relevant_urlb u = true) by (inversion H; reflexivity).
  apply relevant_url_iff in Hu.
  assert (Hx : relevant_urlb (before ++ u ++ after) = true).
  { apply relevant_url_iff. unfold relevant_url in *.
    destruct Hu as [Hu|[Hu|Hu]]; [left | right; left | right; right];
      now apply has_substring_extend. }
  now rewrite Hx.
Qed.

Lemma filter_matches_anywhere_witness :
  is_relevant (JStr "callback") [] = ([], Ok true) /\
  is_relevant (JStr ("https://x.com/static/" ++ "callback" ++ ".js?v=2")) [] =
  ([], Ok true).
Proof.
  assert (H : is_relevant (JStr "callback") [] = ([], Ok true)) by reflexivity.
  split; [exact H|].
  exact (filter_matches_anywhere "callback" "https://x.com/static/" ".js?v=2" [] H).
Defined.

(** ** Fields the script never reads *)

(** X14: the output for an entry depends only on eight fields: the
    request's url, method, headers and queryString, and the response's
    status, statusText and the mimeType and text of its content.  Two
    entries that agree on them are processed identically, whatever else
    (cookies, posted data, response headers, timings) they hold. *)
Theorem only_read_fields_matter
        (e1 e2 : json) (q1 q2 r1 r2 c1 c2 : list (string * json)) (t : trace) :
  subscript e1 "request" = Ok (JObj q1) ->
  subscript e2 "request" = Ok (JObj q2) ->
  subscript e1 "response" = Ok (JObj r1) ->
  subscript e2 "response" = Ok (JObj r2) ->
  assoc "url" q1 = assoc "url" q2 ->
  assoc "method" q1 = assoc "method" q2 ->
  assoc "headers" q1 = assoc "headers" q2 ->
  assoc "queryString" q1 = assoc "queryString" q2 ->
  assoc "status" r1 = assoc "status" r2 ->
  assoc "statusText" r1 = assoc "statusText" r2 ->
  assoc "content" r1 = Some (JObj c1) ->
  assoc "content" r2 = Some (JObj c2) ->
  assoc "mimeType" c1 = assoc "mimeType" c2 ->
  assoc "text" c1 = assoc "text" c2 ->
  process_entry e1 t = process_entry e2 t.
Proof.
  intros Hq1 Hq2 Hr1 Hr2 Hu Hm Hh Hqs Hs Hst Hc1 Hc2 Hmi Hte.
  unfold process_entry, print_block, print_headers, print_query_params,
    print_response_content, is_json_content, bind, lift.
  rewrite Hq1, Hq2, Hr1, Hr2. cbn [subscript get].
  rewrite Hc1, Hc2. cbn [subscript get].
  rewrite Hu, Hm, Hh, Hqs, Hs, Hst, Hmi, Hte. reflexivity.
Qed.

Lemma only_read_fields_matter_witness :
  process_entry login_entry [] = process_entry verbose_login_entry [].
Proof.
  refine (only_read_fields_matter login_entry verbose_login_entry
            _ _ _ _ _ _ [] eq_refl eq_refl eq_refl eq_refl
            eq_refl eq_refl eq_refl eq_refl eq_refl eq_refl eq_refl eq_refl
            eq_refl eq_refl).
Defined.

(** ** A text that is [null] *)

(** X16: a content whose [text] is [null] is not treated as a content
    without text.  When the body has to be printed (JSON mime type, or
    status 400 and above) the entry raises a [TypeError] at that point,
    printing no body line; when no body is due the [null] is never looked
    at and the entry ends normally. *)
Theorem null_text_raises_when_read
        (response : json) (c : list (string * json)) (mime : option string) (t : trace) :
  subscript response "content" = Ok (JObj c) ->
  opt_str_field "mimeType" (JObj c) = Some mime ->
  assoc "text" c = Some JNull ->
  (json_mimeb mime = true ->
   exists msg, print_response_content response t = (t, Raise (TypeError msg))) /\
  (json_mimeb mime = false ->
   forall status,
     subscript response "status" = Ok (JInt status) ->
     ((400 <= status)%Z ->
      exists msg, print_response_content response t = (t, Raise (TypeError msg))) /\
     ((status < 400)%Z ->
      print_response_content response t = (t, Ok tt))).
Proof.
  intros Hc Hm Ht.
  assert (Hrun : print_response_content response t =
                 if json_mimeb mime then
                   (t, Raise (TypeError "object of type 'NoneType' has no len()"))
                 else
                   (status <- lift (subscript response "status") ;;
                    is_error <- lift (ge_int status 400) ;;
                    if is_error then
                      lift (Raise (TypeError "'NoneType' object is not subscriptable"))
                    else ret tt) t).
  { unfold print_response_content. unfold bind at 1 2. unfold lift at 1.
    rewrite Hc, (is_json_content_typed _ _ _ Hm).
    destruct (json_mimeb mime).
    - unfold bind, lift. cbn [get]. rewrite Ht. reflexivity.
    - unfold bind, lift. destruct (subscript response "status") as [st|]; [|reflexivity].
      destruct (ge_int st 400) as [[|]|]; try reflexivity.
      cbn [get]. rewrite Ht. reflexivity. }
  rewrite Hrun. split.
  - intros ->. eexists. reflexivity.
  - intros -> status Hs. unfold bind, lift. rewrite Hs. simpl ge_int. cbv iota. split.
    + intros H. apply Z.leb_le in H. rewrite H. eexists. reflexivity.
    + intros H. apply Z.leb_gt in H. rewrite H. reflexivity.
Qed.

Lemma null_text_raises_when_read_witness :
  (exists msg,
      print_response_content
        (sample_response 200 [("content", JObj [("mimeType", JStr "application/json");
                                                 ("text", JNull)])]) []
      = ([], Raise (TypeError msg))) /\
  print_response_content
    (sample_response 302 [("content", JObj [("mimeType", JStr "text/html");
                                             ("text", JNull)])]) []
  = ([], Ok tt).
Proof.
  split.
  - apply (proj1 (null_text_raises_when_read
                    (sample_response 200
                       [("content", JObj [("mimeType", JStr "application/json");
                                          ("text", JNull)])])
                    [("mimeType", JStr "application/json"); ("text", JNull)]
                    (Some "application/json") [] eq_refl eq_refl eq_refl)).
    reflexivity.
  - apply (proj2 (proj2 (null_text_raises_when_read
                    (sample_response 302
                       [("content", JObj [("mimeType", JStr "text/html");
                                          ("text", JNull)])])
                    [("mimeType", JStr "text/html"); ("text", JNull)]
                    (Some "text/html") [] eq_refl eq_refl eq_refl)
                  eq_refl 302%Z eq_refl)).
    lia.
Defined.
